(** * CreepyBird: the danmaku scheduling engine

    A shallow embedding of the [CreepyBird] class (the engine), of its helper
    classes [Danmaku], [DanmakuItem] and [DanmakuLine], and of the
    [DanmakuType] enumeration of parser.js, followed by the properties of the
    engine that are established or refuted on it.

    Conventions of the embedding.
    - JavaScript numbers that are array positions are [nat]; the two bounds of
      the bisection are [Z], because [right] goes down to [-1].  Times,
      lengths in pixels and durations are rationals ([Q]): the order and the
      arithmetic of the reals, without the rounding, the infinities and the
      NaN of IEEE doubles.
    - Objects compared by identity ([Danmaku] in the active set, [DanmakuLine]
      in [indexOf], DOM elements) carry the address they were allocated at;
      [heap] is the allocator.
    - A method is a function of the engine state that gives an outcome and the
      state it leaves: a thrown exception keeps the writes made before it.
    - What the browser reports during one synchronous call (video geometry and
      clock, bounding boxes, animation states) is a [Host] argument.  What the
      engine asks of the rendering surface is appended to the [dom] trace.
    - [_log] only writes to the console and is left out. *)

From Stdlib Require Import ZArith QArith Qround Qabs Ascii String.
From stdpp Require Import base gmap list strings sorting.
From Equations Require Import Equations.

Open Scope Z_scope.

(** ** Data model *)

(** parser.js: [DanmakuType = { Float: 0, Bottom: 1, Top: 2 }]. *)
Module DanmakuType.
Inductive t := Float | Bottom | Top.

(** The enumerator a number stands for. *)
Definition of_number (n : Z) : option t :=
  if n =? 0 then Some Float
  else if n =? 1 then Some Bottom
  else if n =? 2 then Some Top
  else None.
End DanmakuType.

(** [CreepyBirdState]. *)
Module CreepyBirdState.
Inductive t := Empty | Hide | Playing | Paused.

Definition eqb (a b : t) : bool :=
  match a, b with
  | Empty, Empty | Hide, Hide | Playing, Playing | Paused, Paused => true
  | _, _ => false
  end.
End CreepyBirdState.

(** One element of the array a load hands over: [[time, mode, color, userId, text]]. *)
Record Tuple := {
  t_time : Q;
  t_mode : Z;
  t_color : string;
  t_userId : string;
  t_text : string
}.

(** [class Danmaku]; [oid] is the identity of the object. *)
Record Danmaku := {
  oid : nat;
  time : Q;
  mode : DanmakuType.t;
  color : string;
  userId : string;
  text : string
}.

(** [class DanmakuItem]: a danmaku and the [div] that shows it. *)
Record DanmakuItem := {
  danmaku : Danmaku;
  element : nat
}.

(** [class DanmakuLine]; [lid] is the identity of the object. *)
Record DanmakuLine := {
  lid : nat;
  queue : list DanmakuItem;
  fixedItem : option DanmakuItem
}.

(** [animation.playState] of the Web Animations interface. *)
Module PlayState.
Inductive t := idle | running | paused | finished.
End PlayState.

(** What the browser answers while one call of the engine runs. *)
Record Host := {
  clientWidth : Q;                       (* this._videoElement.clientWidth *)
  clientHeight : Q;                      (* this._videoElement.clientHeight *)
  currentTime : Q;                       (* this._videoElement.currentTime *)
  video_paused : bool;                   (* this._videoElement.paused *)
  rect_right : nat -> Q;                 (* element.getBoundingClientRect().right *)
  offsetWidth : nat -> Q;                (* element.offsetWidth *)
  playState : nat -> option PlayState.t  (* element.getAnimations()[0]?.playState *)
}.

(** Requests to the rendering surface, most recent first in the trace. *)
Inductive DomOp :=
  | CreateOverlay (el video : nat)
  | RemoveOverlay (el : nat)
  | SetDisplay (el : nat) (shown : bool)
  | CreateItem (el : nat) (d : nat)
  | RemoveItem (el : nat)
  | ScrollItem (el : nat) (top : Z) (from to duration : Q)
  | FixItem (el : nat) (top : Z) (left : Q)
  | PauseAnimation (el : nat)
  | PlayAnimation (el : nat).

(** The fields of [class CreepyBird] ([version] is never read).  The two
    observers and the handler table are kept as "installed or not". *)
Record CreepyBird := {
  overlayElement : option nat;
  _data : option (list Danmaku);
  _isVisible : bool;
  _intervalId : option nat;
  _videoElement : option nat;
  danmakuSpeed : Q;
  _fontSize : Q;
  _lineSpacing : Q;
  _lineMargin : Q;
  _danmakuLines : list DanmakuLine;
  _nextDanmakuIndex : option nat;
  _activeDanmaku : gset nat;
  _debug : bool;
  _handlers : bool;
  _state : CreepyBirdState.t;
  _resizeObserver : bool;
  _intersectionObserver : bool;
  heap : nat;
  dom : list DomOp
}.

(** Assignment to one field. *)
Definition set_overlayElement (x : option nat) (s : CreepyBird) : CreepyBird :=
  {| overlayElement := x; _data := _data s; _isVisible := _isVisible s;
     _intervalId := _intervalId s; _videoElement := _videoElement s;
     danmakuSpeed := danmakuSpeed s; _fontSize := _fontSize s;
     _lineSpacing := _lineSpacing s; _lineMargin := _lineMargin s;
     _danmakuLines := _danmakuLines s; _nextDanmakuIndex := _nextDanmakuIndex s;
     _activeDanmaku := _activeDanmaku s; _debug := _debug s; _handlers := _handlers s;
     _state := _state s; _resizeObserver := _resizeObserver s;
     _intersectionObserver := _intersectionObserver s; heap := heap s; dom := dom s |}.

Definition set_data (x : option (list Danmaku)) (s : CreepyBird) : CreepyBird :=
  {| overlayElement := overlayElement s; _data := x; _isVisible := _isVisible s;
     _intervalId := _intervalId s; _videoElement := _videoElement s;
     danmakuSpeed := danmakuSpeed s; _fontSize := _fontSize s;
     _lineSpacing := _lineSpacing s; _lineMargin := _lineMargin s;
     _danmakuLines := _danmakuLines s; _nextDanmakuIndex := _nextDanmakuIndex s;
     _activeDanmaku := _activeDanmaku s; _debug := _debug s; _handlers := _handlers s;
     _state := _state s; _resizeObserver := _resizeObserver s;
     _intersectionObserver := _intersectionObserver s; heap := heap s; dom := dom s |}.

Definition set_isVisible (x : bool) (s : CreepyBird) : CreepyBird :=
  {| overlayElement := overlayElement s; _data := _data s; _isVisible := x;
     _intervalId := _intervalId s; _videoElement := _videoElement s;
     danmakuSpeed := danmakuSpeed s; _fontSize := _fontSize s;
     _lineSpacing := _lineSpacing s; _lineMargin := _lineMargin s;
     _danmakuLines := _danmakuLines s; _nextDanmakuIndex := _nextDanmakuIndex s;
     _activeDanmaku := _activeDanmaku s; _debug := _debug s; _handlers := _handlers s;
     _state := _state s; _resizeObserver := _resizeObserver s;
     _intersectionObserver := _intersectionObserver s; heap := heap s; dom := dom s |}.

Definition set_intervalId (x : option nat) (s : CreepyBird) : CreepyBird :=
  {| overlayElement := overlayElement s; _data := _data s; _isVisible := _isVisible s;
     _intervalId := x; _videoElement := _videoElement s; danmakuSpeed := danmakuSpeed s;
     _fontSize := _fontSize s; _lineSpacing := _lineSpacing s;
     _lineMargin := _lineMargin s; _danmakuLines := _danmakuLines s;
     _nextDanmakuIndex := _nextDanmakuIndex s; _activeDanmaku := _activeDanmaku s;
     _debug := _debug s; _handlers := _handlers s; _state := _state s;
     _resizeObserver := _resizeObserver s;
     _intersectionObserver := _intersectionObserver s; heap := heap s; dom := dom s |}.

Definition set_videoElement (x : option nat) (s : CreepyBird) : CreepyBird :=
  {| overlayElement := overlayElement s; _data := _data s; _isVisible := _isVisible s;
     _intervalId := _intervalId s; _videoElement := x; danmakuSpeed := danmakuSpeed s;
     _fontSize := _fontSize s; _lineSpacing := _lineSpacing s;
     _lineMargin := _lineMargin s; _danmakuLines := _danmakuLines s;
     _nextDanmakuIndex := _nextDanmakuIndex s; _activeDanmaku := _activeDanmaku s;
     _debug := _debug s; _handlers := _handlers s; _state := _state s;
     _resizeObserver := _resizeObserver s;
     _intersectionObserver := _intersectionObserver s; heap := heap s; dom := dom s |}.

Definition set_fontSize (x : Q) (s : CreepyBird) : CreepyBird :=
  {| overlayElement := overlayElement s; _data := _data s; _isVisible := _isVisible s;
     _intervalId := _intervalId s; _videoElement := _videoElement s;
     danmakuSpeed := danmakuSpeed s; _fontSize := x; _lineSpacing := _lineSpacing s;
     _lineMargin := _lineMargin s; _danmakuLines := _danmakuLines s;
     _nextDanmakuIndex := _nextDanmakuIndex s; _activeDanmaku := _activeDanmaku s;
     _debug := _debug s; _handlers := _handlers s; _state := _state s;
     _resizeObserver := _resizeObserver s;
     _intersectionObserver := _intersectionObserver s; heap := heap s; dom := dom s |}.

Definition set_lineMargin (x : Q) (s : CreepyBird) : CreepyBird :=
  {| overlayElement := overlayElement s; _data := _data s; _isVisible := _isVisible s;
     _intervalId := _intervalId s; _videoElement := _videoElement s;
     danmakuSpeed := danmakuSpeed s; _fontSize := _fontSize s;
     _lineSpacing := _lineSpacing s; _lineMargin := x; _danmakuLines := _danmakuLines s;
     _nextDanmakuIndex := _nextDanmakuIndex s; _activeDanmaku := _activeDanmaku s;
     _debug := _debug s; _handlers := _handlers s; _state := _state s;
     _resizeObserver := _resizeObserver s;
     _intersectionObserver := _intersectionObserver s; heap := heap s; dom := dom s |}.

Definition set_danmakuLines (x : list DanmakuLine) (s : CreepyBird) : CreepyBird :=
  {| overlayElement := overlayElement s; _data := _data s; _isVisible := _isVisible s;
     _intervalId := _intervalId s; _videoElement := _videoElement s;
     danmakuSpeed := danmakuSpeed s; _fontSize := _fontSize s;
     _lineSpacing := _lineSpacing s; _lineMargin := _lineMargin s; _danmakuLines := x;
     _nextDanmakuIndex := _nextDanmakuIndex s; _activeDanmaku := _activeDanmaku s;
     _debug := _debug s; _handlers := _handlers s; _state := _state s;
     _resizeObserver := _resizeObserver s;
     _intersectionObserver := _intersectionObserver s; heap := heap s; dom := dom s |}.

Definition set_nextDanmakuIndex (x : option nat) (s : CreepyBird) : CreepyBird :=
  {| overlayElement := overlayElement s; _data := _data s; _isVisible := _isVisible s;
     _intervalId := _intervalId s; _videoElement := _videoElement s;
     danmakuSpeed := danmakuSpeed s; _fontSize := _fontSize s;
     _lineSpacing := _lineSpacing s; _lineMargin := _lineMargin s;
     _danmakuLines := _danmakuLines s; _nextDanmakuIndex := x;
     _activeDanmaku := _activeDanmaku s; _debug := _debug s; _handlers := _handlers s;
     _state := _state s; _resizeObserver := _resizeObserver s;
     _intersectionObserver := _intersectionObserver s; heap := heap s; dom := dom s |}.

Definition set_activeDanmaku (x : gset nat) (s : CreepyBird) : CreepyBird :=
  {| overlayElement := overlayElement s; _data := _data s; _isVisible := _isVisible s;
     _intervalId := _intervalId s; _videoElement := _videoElement s;
     danmakuSpeed := danmakuSpeed s; _fontSize := _fontSize s;
     _lineSpacing := _lineSpacing s; _lineMargin := _lineMargin s;
     _danmakuLines := _danmakuLines s; _nextDanmakuIndex := _nextDanmakuIndex s;
     _activeDanmaku := x; _debug := _debug s; _handlers := _handlers s;
     _state := _state s; _resizeObserver := _resizeObserver s;
     _intersectionObserver := _intersectionObserver s; heap := heap s; dom := dom s |}.

Definition set_debug (x : bool) (s : CreepyBird) : CreepyBird :=
  {| overlayElement := overlayElement s; _data := _data s; _isVisible := _isVisible s;
     _intervalId := _intervalId s; _videoElement := _videoElement s;
     danmakuSpeed := danmakuSpeed s; _fontSize := _fontSize s;
     _lineSpacing := _lineSpacing s; _lineMargin := _lineMargin s;
     _danmakuLines := _danmakuLines s; _nextDanmakuIndex := _nextDanmakuIndex s;
     _activeDanmaku := _activeDanmaku s; _debug := x; _handlers := _handlers s;
     _state := _state s; _resizeObserver := _resizeObserver s;
     _intersectionObserver := _intersectionObserver s; heap := heap s; dom := dom s |}.

Definition set_handlers (x : bool) (s : CreepyBird) : CreepyBird :=
  {| overlayElement := overlayElement s; _data := _data s; _isVisible := _isVisible s;
     _intervalId := _intervalId s; _videoElement := _videoElement s;
     danmakuSpeed := danmakuSpeed s; _fontSize := _fontSize s;
     _lineSpacing := _lineSpacing s; _lineMargin := _lineMargin s;
     _danmakuLines := _danmakuLines s; _nextDanmakuIndex := _nextDanmakuIndex s;
     _activeDanmaku := _activeDanmaku s; _debug := _debug s; _handlers := x;
     _state := _state s; _resizeObserver := _resizeObserver s;
     _intersectionObserver := _intersectionObserver s; heap := heap s; dom := dom s |}.

Definition set_state (x : CreepyBirdState.t) (s : CreepyBird) : CreepyBird :=
  {| overlayElement := overlayElement s; _data := _data s; _isVisible := _isVisible s;
     _intervalId := _intervalId s; _videoElement := _videoElement s;
     danmakuSpeed := danmakuSpeed s; _fontSize := _fontSize s;
     _lineSpacing := _lineSpacing s; _lineMargin := _lineMargin s;
     _danmakuLines := _danmakuLines s; _nextDanmakuIndex := _nextDanmakuIndex s;
     _activeDanmaku := _activeDanmaku s; _debug := _debug s; _handlers := _handlers s;
     _state := x; _resizeObserver := _resizeObserver s;
     _intersectionObserver := _intersectionObserver s; heap := heap s; dom := dom s |}.

Definition set_resizeObserver (x : bool) (s : CreepyBird) : CreepyBird :=
  {| overlayElement := overlayElement s; _data := _data s; _isVisible := _isVisible s;
     _intervalId := _intervalId s; _videoElement := _videoElement s;
     danmakuSpeed := danmakuSpeed s; _fontSize := _fontSize s;
     _lineSpacing := _lineSpacing s; _lineMargin := _lineMargin s;
     _danmakuLines := _danmakuLines s; _nextDanmakuIndex := _nextDanmakuIndex s;
     _activeDanmaku := _activeDanmaku s; _debug := _debug s; _handlers := _handlers s;
     _state := _state s; _resizeObserver := x;
     _intersectionObserver := _intersectionObserver s; heap := heap s; dom := dom s |}.

Definition set_intersectionObserver (x : bool) (s : CreepyBird) : CreepyBird :=
  {| overlayElement := overlayElement s; _data := _data s; _isVisible := _isVisible s;
     _intervalId := _intervalId s; _videoElement := _videoElement s;
     danmakuSpeed := danmakuSpeed s; _fontSize := _fontSize s;
     _lineSpacing := _lineSpacing s; _lineMargin := _lineMargin s;
     _danmakuLines := _danmakuLines s; _nextDanmakuIndex := _nextDanmakuIndex s;
     _activeDanmaku := _activeDanmaku s; _debug := _debug s; _handlers := _handlers s;
     _state := _state s; _resizeObserver := _resizeObserver s; _intersectionObserver := x;
     heap := heap s; dom := dom s |}.

Definition set_heap (x : nat) (s : CreepyBird) : CreepyBird :=
  {| overlayElement := overlayElement s; _data := _data s; _isVisible := _isVisible s;
     _intervalId := _intervalId s; _videoElement := _videoElement s;
     danmakuSpeed := danmakuSpeed s; _fontSize := _fontSize s;
     _lineSpacing := _lineSpacing s; _lineMargin := _lineMargin s;
     _danmakuLines := _danmakuLines s; _nextDanmakuIndex := _nextDanmakuIndex s;
     _activeDanmaku := _activeDanmaku s; _debug := _debug s; _handlers := _handlers s;
     _state := _state s; _resizeObserver := _resizeObserver s;
     _intersectionObserver := _intersectionObserver s; heap := x; dom := dom s |}.

Definition set_dom (x : list DomOp) (s : CreepyBird) : CreepyBird :=
  {| overlayElement := overlayElement s; _data := _data s; _isVisible := _isVisible s;
     _intervalId := _intervalId s; _videoElement := _videoElement s;
     danmakuSpeed := danmakuSpeed s; _fontSize := _fontSize s;
     _lineSpacing := _lineSpacing s; _lineMargin := _lineMargin s;
     _danmakuLines := _danmakuLines s; _nextDanmakuIndex := _nextDanmakuIndex s;
     _activeDanmaku := _activeDanmaku s; _debug := _debug s; _handlers := _handlers s;
     _state := _state s; _resizeObserver := _resizeObserver s;
     _intersectionObserver := _intersectionObserver s; heap := heap s; dom := x |}.

(** [constructor()]. *)
Definition constructor : CreepyBird :=
  {| overlayElement := None; _data := None; _isVisible := false;
     _intervalId := None; _videoElement := None; danmakuSpeed := 100;
     _fontSize := 24; _lineSpacing := 12 # 10; _lineMargin := 50;
     _danmakuLines := []; _nextDanmakuIndex := None; _activeDanmaku := ∅;
     _debug := false; _handlers := false; _state := CreepyBirdState.Empty;
     _resizeObserver := false; _intersectionObserver := false;
     heap := 1; dom := [] |}.

(** ** Methods as state transformers *)

Inductive Outcome (A : Type) :=
  | Ok (a : A)          (* normal completion with a value *)
  | Throw (msg : string) (* an exception leaves the call *)
  | Hang.               (* the call is still looping: a loop without a bound,
                           or one that outlived the fuel it was run with *)
Arguments Ok {A} a.
Arguments Throw {A} msg.
Arguments Hang {A}.

Definition M (A : Type) : Type := CreepyBird -> Outcome A * CreepyBird.

Definition ret {A} (a : A) : M A := fun s => (Ok a, s).

Definition bind {A B} (m : M A) (k : A -> M B) : M B :=
  fun s =>
    match m s with
    | (Ok a, s') => k a s'
    | (Throw e, s') => (Throw e, s')
    | (Hang, s') => (Hang, s')
    end.

Definition throw {A} (msg : string) : M A := fun s => (Throw msg, s).
Definition hang {A} : M A := fun s => (Hang, s).
Definition get : M CreepyBird := fun s => (Ok s, s).
Definition modify (f : CreepyBird -> CreepyBird) : M unit := fun s => (Ok tt, f s).
Definition emit (op : DomOp) : M unit := modify (fun s => set_dom (op :: dom s) s).
Definition emits (ops : list DomOp) : M unit :=
  modify (fun s => set_dom (reverse ops ++ dom s) s).

(** [new]: the next free address. *)
Definition alloc : M nat := fun s => (Ok (heap s), set_heap (S (heap s)) s).

Declare Scope js_scope.
Delimit Scope js_scope with js.
Notation "'let*' x := m 'in' k" := (bind m (fun x => k))
  (at level 10, x name, m at level 100, k at level 200) : js_scope.
Notation "m ;; k" := (bind m (fun _ => k))
  (at level 100, k at level 200, right associativity) : js_scope.
Open Scope js_scope.

(** The value of [return this]. *)
Inductive Self := this.

(** State after a call, and its outcome. *)
Definition exec {A} (m : M A) (s : CreepyBird) : CreepyBird := snd (m s).
Definition outcome {A} (m : M A) (s : CreepyBird) : Outcome A := fst (m s).

(** ** [class Danmaku] *)

(** [_validateMode(mode)]: the mode is one of the three enumerators. *)
Definition _validateMode (mode : Z) : M DanmakuType.t :=
  match DanmakuType.of_number mode with
  | Some m => ret m
  | None => throw "Invalid danmaku mode"
  end.

(** [new Danmaku(time, mode, color, userId, text)]. *)
Definition new_Danmaku (t : Tuple) : M Danmaku :=
  let* o := alloc in
  let* m := _validateMode (t_mode t) in
  ret {| oid := o; time := t_time t; mode := m; color := t_color t;
         userId := t_userId t; text := t_text t |}.

(** ** [class DanmakuItem] *)

(** [new DanmakuItem(danmaku, creepyBird)]: a hidden [div] appended to the
    overlay. *)
Definition new_DanmakuItem (d : Danmaku) : M DanmakuItem :=
  let* s := get in
  match overlayElement s with
  | None => throw "CreepyBird overlay element is not initialized"
  | Some _ =>
      let* el := alloc in
      emit (CreateItem el (oid d));;
      ret {| danmaku := d; element := el |}
  end.

(** [item.remove()], as a request to the surface. *)
Definition item_remove (it : DanmakuItem) : DomOp := RemoveItem (element it).

(** ** [class DanmakuLine] *)

Definition new_DanmakuLine : M DanmakuLine :=
  let* l := alloc in
  ret {| lid := l; queue := []; fixedItem := None |}.

(** [line.push(item)]. *)
Definition line_push (it : DanmakuItem) (l : DanmakuLine) : DanmakuLine :=
  {| lid := lid l; queue := queue l ++ [it]; fixedItem := fixedItem l |}.

(** [line.setFixed(item)]: a fixed item already there leaves the surface. *)
Definition line_setFixed (it : DanmakuItem) (l : DanmakuLine) : DanmakuLine * list DomOp :=
  ({| lid := lid l; queue := queue l; fixedItem := Some it |},
   match fixedItem l with Some old => [item_remove old] | None => [] end).

(** [line.removeFixed()]. *)
Definition line_removeFixed (l : DanmakuLine) : DanmakuLine * list DomOp :=
  match fixedItem l with
  | Some it => ({| lid := lid l; queue := queue l; fixedItem := None |}, [item_remove it])
  | None => (l, [])
  end.

(** [line.hasFixed()]. *)
Definition hasFixed (l : DanmakuLine) : bool :=
  match fixedItem l with Some _ => true | None => false end.

(** [line.clear()]: [pop()] until the queue is empty, then [removeFixed()]. *)
Definition line_clear (l : DanmakuLine) : DanmakuLine * list DomOp :=
  let (l', ops) := line_removeFixed {| lid := lid l; queue := []; fixedItem := fixedItem l |} in
  (l', map item_remove (queue l) ++ ops).

(** ** [class CreepyBird] *)

(** [setDebug(enabled)]. *)
Definition setDebug (enabled : bool) : M Self :=
  modify (set_debug enabled);; ret this.

(** [isVisible()]. *)
Definition isVisible : M bool := fun s => (Ok (_isVisible s), s).

(** The [while (left <= right)] loop of [searchCurDanmaku].  A position
    outside the array would make [this._data[mid].time] throw; from a
    natural [startIndex] the loop never probes one. *)
Definition inspect {A} (a : A) : {b | a = b} := exist _ a eq_refl.

Equations? search_loop (data : list Danmaku) (t : Q) (lo hi : Z) : option nat
  by wf (Z.to_nat (hi - lo + 1)) lt :=
  search_loop data t lo hi with inspect (lo <=? hi) := {
    | exist _ true _ with inspect (data !! Z.to_nat ((lo + hi) / 2)) := {
        | exist _ None _ => None
        | exist _ (Some d) _ =>
            if Qeq_bool (time d) t then Some (Z.to_nat ((lo + hi) / 2))
            else if Qlt_le_dec (time d) t
                 then search_loop data t ((lo + hi) / 2 + 1) hi
                 else search_loop data t lo ((lo + hi) / 2 - 1) }
    | exist _ false _ =>
        if lo <? Z.of_nat (length data) then Some (Z.to_nat lo) else None }.
Proof.
  all: apply Z.leb_le in e;
       pose proof (Z.div_le_lower_bound (lo + hi) 2 lo ltac:(lia) ltac:(lia));
       pose proof (Z.div_le_upper_bound (lo + hi) 2 hi ltac:(lia) ltac:(lia)); lia.
Qed.

(** [searchCurDanmaku(time, startIndex = 0)]; [None] is [null]. *)
Definition searchCurDanmaku (s : CreepyBird) (t : Q) (startIndex : nat) : option nat :=
  match _data s with
  | None => None
  | Some data =>
      if (length data =? 0)%nat then None
      else search_loop data t (Z.of_nat startIndex) (Z.of_nat (length data) - 1)
  end.

(** [seek(time)]. *)
Definition seek (t : Q) : M unit := modify (set_nextDanmakuIndex None).

(** [calDanmakuDuration(danmaku)]. *)
Definition calDanmakuDuration (h : Host) (s : CreepyBird) (d : Danmaku) : Q :=
  match _videoElement s with
  | None => 0
  | Some _ =>
      match mode d with
      | DanmakuType.Float => clientWidth h / danmakuSpeed s
      | DanmakuType.Bottom | DanmakuType.Top => 5
      end
  end.

(** [setFontSize(size)]. *)
Definition setFontSize (size : Q) : M Self :=
  modify (set_fontSize size);; ret this.

(** [setLineMargin(margin)]. *)
Definition setLineMargin (margin : Q) : M Self :=
  if Qlt_le_dec margin 0 then throw "Line margin must be non-negative"
  else modify (set_lineMargin margin);; ret this.

(** The number [calAvailableLines] computes: an integer, or what a division
    by a zero line height gives. *)
Inductive Lines := Finite (n : Z) | PlusInfinity | MinusInfinity | NaN.

(** [calAvailableLines()]. *)
Definition calAvailableLines (h : Host) (s : CreepyBird) : Lines :=
  match _videoElement s with
  | None => Finite 0
  | Some _ =>
      let videoHeight := clientHeight h in
      let lineHeight := Qceiling (_fontSize s * _lineSpacing s) in
      if lineHeight =? 0 then
        (if Qeq_bool videoHeight 0 then NaN
         else if Qlt_le_dec videoHeight 0 then MinusInfinity else PlusInfinity)
      else Finite (Qfloor (videoHeight / inject_Z lineHeight))
  end.

(** [a === n], [a < n] and [n < a] for a line count [a] and a length [n]. *)
Definition Lines_eqb (a : Lines) (n : nat) : bool :=
  match a with Finite z => z =? Z.of_nat n | _ => false end.
Definition Lines_ltb (a : Lines) (n : nat) : bool :=
  match a with Finite z => z <? Z.of_nat n | MinusInfinity => true | _ => false end.
Definition Lines_gtb (a : Lines) (n : nat) : bool :=
  match a with Finite z => Z.of_nat n <? z | PlusInfinity => true | _ => false end.

(** [Array.prototype.pop]: the last element and the array left. *)
Definition array_pop {A} (l : list A) : option (list A * A) :=
  match reverse l with
  | [] => None
  | x :: r => Some (reverse r, x)
  end.

(** [while (this._danmakuLines.length > availableLines) { pop(); clear() }].
    On an empty array [pop()] gives [undefined] and [line.clear()] throws. *)
Fixpoint shrink_lines (fuel : nat) (availableLines : Lines) : M unit :=
  let* s := get in
  if Lines_ltb availableLines (length (_danmakuLines s)) then
    match fuel with
    | O => hang
    | S fuel' =>
        match array_pop (_danmakuLines s) with
        | None => throw "TypeError: line is undefined"
        | Some (rest, line) =>
            modify (set_danmakuLines rest);;
            emits (snd (line_clear line));;
            shrink_lines fuel' availableLines
        end
    end
  else ret tt.

(** [while (this._danmakuLines.length < availableLines) push(new DanmakuLine())]. *)
Fixpoint grow_lines (fuel : nat) (availableLines : Lines) : M unit :=
  let* s := get in
  if Lines_gtb availableLines (length (_danmakuLines s)) then
    match fuel with
    | O => hang
    | S fuel' =>
        let* l := new_DanmakuLine in
        modify (fun s => set_danmakuLines (_danmakuLines s ++ [l]) s);;
        grow_lines fuel' availableLines
    end
  else ret tt.

(** [updateDanmakuLines()].  The shrinking loop ends within [length + 1]
    rounds (it throws on the empty array at the latest); the growing loop
    needs [availableLines - length] rounds, and none is enough for
    [Infinity]. *)
Definition updateDanmakuLines (h : Host) : M unit :=
  let* s := get in
  let availableLines := calAvailableLines h s in
  let currentLines := length (_danmakuLines s) in
  match _videoElement s with
  | None => throw "TypeError: this._videoElement is null"
  | Some _ =>
      if Lines_eqb availableLines currentLines then ret tt
      else if Lines_ltb availableLines currentLines
      then shrink_lines (S currentLines) availableLines
      else grow_lines
             (match availableLines with Finite n => Z.to_nat n | _ => O end)
             availableLines
  end.

(** [for (let i = 0; ...; i++) if (!lines[i].hasFixed()) return ...lines[i]]. *)
Definition first_without_fixed (lines : list DanmakuLine) : option DanmakuLine :=
  find (fun l => negb (hasFixed l)) lines.

(** [this._danmakuLines.indexOf(line)]: the first position holding that very
    object.  The line asked for was read from the array, so the [-1] of
    JavaScript does not arise and [None] stands for it. *)
Fixpoint indexOf (lines : list DanmakuLine) (l : DanmakuLine) : option nat :=
  match lines with
  | [] => None
  | l' :: rest =>
      if (lid l' =? lid l)%nat then Some O else S <$> indexOf rest l
  end.

(** The test of the scrolling branch of [pickLine] on one line: an empty
    queue, or enough room right of its last item. *)
Definition has_room (h : Host) (s : CreepyBird) (line : DanmakuLine) : bool :=
  match last (queue line) with
  | None => true
  | Some lastItem =>
      let rightEdge := rect_right h (element lastItem) in
      let margin := (clientWidth h - rightEdge)%Q in
      Qle_bool (_lineMargin s) margin
  end.

(** [for (let i = 0; i < this._danmakuLines.length; i++) ...], from [i]. *)
Fixpoint scan_lines (h : Host) (s : CreepyBird) (lines : list DanmakuLine) (i : nat)
  : option nat :=
  match lines with
  | [] => None
  | line :: rest => if has_room h s line then Some i else scan_lines h s rest (S i)
  end.

(** [pickLine(danmakuItem)]; [Ok None] is [null]. *)
Definition pickLine (h : Host) (s : CreepyBird) (danmakuItem : DanmakuItem)
  : Outcome (option nat) :=
  if (length (_danmakuLines s) =? 0)%nat then Ok None
  else
    match mode (danmaku danmakuItem) with
    | DanmakuType.Bottom =>
        match first_without_fixed (reverse (_danmakuLines s)) with
        | Some l => Ok (indexOf (_danmakuLines s) l)
        | None => Ok None
        end
    | DanmakuType.Top =>
        match first_without_fixed (_danmakuLines s) with
        | Some l => Ok (indexOf (_danmakuLines s) l)
        | None => Ok None
        end
    | DanmakuType.Float =>
        match _videoElement s with
        | None => Throw "TypeError: this._videoElement is null"
        | Some _ => Ok (scan_lines h s (_danmakuLines s) 0)
        end
    end.

(** Lift a computation that only reads the state. *)
Definition read {A} (f : CreepyBird -> Outcome A) : M A := fun s => (f s, s).

(** How one round of a [while (true)] body ends. *)
Inductive LoopCtl := Break | Continue.

(** The index [loadDanmaku] looks at next: the cached one when it is set and
    inside the array, else the one [searchCurDanmaku] finds, if any. *)
Definition next_candidate (s : CreepyBird) (data : list Danmaku) (t : Q) : option nat :=
  match _nextDanmakuIndex s with
  | Some c => if (c <? length data)%nat then Some c else searchCurDanmaku s t 0
  | None => searchCurDanmaku s t 0
  end.

(** The end of the loop body once a line was picked: the danmaku becomes
    active and its item is placed and put on the line. *)
Definition activate (h : Host) (danmakuItem : DanmakuItem) (lineIndex : nat) : M unit :=
  let d := danmaku danmakuItem in
  modify (fun s => set_activeDanmaku ({[oid d]} ∪ _activeDanmaku s) s);;
  let* s := get in
  match _videoElement s with
  | None => throw "TypeError: this._videoElement is null"
  | Some _ =>
      let videoWidth := clientWidth h in
      let lineHeight := (clientHeight h / inject_Z (Z.of_nat (length (_danmakuLines s))))%Q in
      let verticalPosition := Qceiling (inject_Z (Z.of_nat lineIndex) * lineHeight) in
      match _danmakuLines s !! lineIndex with
      | None => throw "TypeError: line is undefined"
      | Some line =>
          match mode d with
          | DanmakuType.Float =>
              let duration := calDanmakuDuration h s d in
              emit (ScrollItem (element danmakuItem) verticalPosition videoWidth
                      (- offsetWidth h (element danmakuItem)) duration);;
              modify (set_danmakuLines
                        (<[lineIndex := line_push danmakuItem line]> (_danmakuLines s)))
          | _ =>
              let itemLength := offsetWidth h (element danmakuItem) in
              emit (FixItem (element danmakuItem) verticalPosition
                      ((videoWidth - itemLength) / 2));;
              let (line', ops) := line_setFixed danmakuItem line in
              emits ops;;
              modify (set_danmakuLines (<[lineIndex := line']> (_danmakuLines s)))
          end
      end
  end.

(** The rest of a round once the next index is stored: the item is built, a
    line is asked for, and the item is put on it or given up. *)
Definition try_activate (h : Host) (d : Danmaku) : M LoopCtl :=
  let* danmakuItem := new_DanmakuItem d in
  let* lineIndex := read (fun s => pickLine h s danmakuItem) in
  match lineIndex with
  | None => emit (item_remove danmakuItem);; ret Continue
  | Some lineIndex => activate h danmakuItem lineIndex;; ret Continue
  end.

(** One round of the [while (true)] of [loadDanmaku(currentTime)]. *)
Definition loadDanmaku_body (h : Host) (t : Q) : M LoopCtl :=
  let* s := get in
  match _data s with
  | None => throw "TypeError: this._data is null"
  | Some data =>
      match next_candidate s data t with
      | None => ret Break
      | Some index =>
          match data !! index with
          | None => throw "TypeError: danmaku is undefined"
          | Some d =>
              if decide (oid d ∈ _activeDanmaku s) then
                modify (set_nextDanmakuIndex (Some (index + 1)%nat));;
                ret Continue
              else
                let timeDiff := Qabs (time d - t) in
                if Qlt_le_dec (1 # 10) timeDiff then ret Break
                else
                  modify (set_nextDanmakuIndex (Some (index + 1)%nat));;
                  try_activate h d
          end
      end
  end.

(** The loop itself, for at most [fuel] rounds. *)
Fixpoint loadDanmaku_loop (fuel : nat) (h : Host) (t : Q) : M unit :=
  match fuel with
  | O => hang
  | S fuel' =>
      let* c := loadDanmaku_body h t in
      match c with
      | Break => ret tt
      | Continue => loadDanmaku_loop fuel' h t
      end
  end.

(** [loadDanmaku(currentTime)]. *)
Definition loadDanmaku (fuel : nat) (h : Host) (t : Q) : M unit :=
  let* s := get in
  match _data s with
  | None => ret tt
  | Some _ => if negb (_isVisible s) then ret tt else loadDanmaku_loop fuel h t
  end.

(** [this._activeDanmaku.delete(d)]. *)
Definition active_delete (d : Danmaku) : M unit :=
  modify (fun s => set_activeDanmaku (_activeDanmaku s ∖ {[oid d]}) s).

(** [while (line.queue.length > 0) ...] of [cleanupDanmaku]: the queue left. *)
Fixpoint cleanup_queue (h : Host) (q : list DanmakuItem) : M (list DanmakuItem) :=
  match q with
  | [] => ret []
  | frontItem :: rest =>
      match playState h (element frontItem) with
      | Some PlayState.finished | None =>
          active_delete (danmaku frontItem);;
          emit (item_remove frontItem);;
          cleanup_queue h rest
      | Some _ => ret q
      end
  end.

(** The callback [cleanupDanmaku] runs on each line: the line left. *)
Definition cleanup_line (h : Host) (line : DanmakuLine) : M DanmakuLine :=
  let* q := cleanup_queue h (queue line) in
  let line1 := {| lid := lid line; queue := q; fixedItem := fixedItem line |} in
  match fixedItem line with
  | Some item =>
      let* s := get in
      let displayTime := (currentTime h - time (danmaku item))%Q in
      if Qle_bool (calDanmakuDuration h s (danmaku item)) displayTime then
        active_delete (danmaku item);;
        let (line2, ops) := line_removeFixed line1 in
        emits ops;; ret line2
      else ret line1
  | None => ret line1
  end.

(** [lines.forEach(f)] for an [f] that updates the line it is given. *)
Fixpoint forEach_line (f : DanmakuLine -> M DanmakuLine) (lines : list DanmakuLine)
  : M (list DanmakuLine) :=
  match lines with
  | [] => ret []
  | l :: rest =>
      let* l' := f l in
      let* rest' := forEach_line f rest in
      ret (l' :: rest')
  end.

(** [cleanupDanmaku()]. *)
Definition cleanupDanmaku (h : Host) : M unit :=
  let* s := get in
  if negb (_isVisible s) then ret tt
  else match _videoElement s with
       | None => ret tt
       | Some _ =>
           let* lines := forEach_line (cleanup_line h) (_danmakuLines s) in
           modify (set_danmakuLines lines)
       end.

(** The callback of [setInterval(..., 100)]. *)
Definition tick (fuel : nat) (h : Host) : M unit :=
  let* s := get in
  match _videoElement s with
  | None => ret tt
  | Some _ => loadDanmaku fuel h (currentTime h);; cleanupDanmaku h
  end.

(** [_startInterval()]. *)
Definition _startInterval : M unit :=
  let* s := get in
  match _intervalId s with
  | Some _ => ret tt
  | None => let* id := alloc in modify (set_intervalId (Some id))
  end.

(** [_clearInterval()]. *)
Definition _clearInterval : M unit :=
  let* s := get in
  match _intervalId s with
  | Some _ =>
      modify (set_intervalId None);;
      modify (set_nextDanmakuIndex None)
  | None => ret tt
  end.

(** The elements whose animation [pause()] and [resume()] address: those of
    the queued items that have one. *)
Definition animated (h : Host) (lines : list DanmakuLine) : list nat :=
  filter (fun el => is_Some (playState h el))
         (map element (concat (map queue lines))).

(** [pause()]. *)
Definition pause (h : Host) : M Self :=
  let* s := get in
  if negb (CreepyBirdState.eqb (_state s) CreepyBirdState.Playing) then ret this
  else
    _clearInterval;;
    emits (map PauseAnimation (animated h (_danmakuLines s)));;
    modify (set_state CreepyBirdState.Paused);;
    ret this.

(** [resume()]. *)
Definition resume (h : Host) : M Self :=
  let* s := get in
  if negb (CreepyBirdState.eqb (_state s) CreepyBirdState.Paused) then ret this
  else
    _startInterval;;
    emits (map PlayAnimation (animated h (_danmakuLines s)));;
    modify (set_state CreepyBirdState.Playing);;
    ret this.

(** [overlayElement.style.display = ...], when there is an overlay. *)
Definition set_display (shown : bool) : M unit :=
  let* s := get in
  match overlayElement s with
  | Some el => emit (SetDisplay el shown)
  | None => ret tt
  end.

(** [show()]. *)
Definition show (h : Host) : M Self :=
  let* s := get in
  if negb (CreepyBirdState.eqb (_state s) CreepyBirdState.Hide) then ret this
  else
    modify (set_isVisible true);;
    set_display true;;
    _startInterval;;
    modify (set_state CreepyBirdState.Playing);;
    let* s := get in
    match _videoElement s with
    | Some _ => if video_paused h then pause h else ret this
    | None => ret this
    end.

(** [hide()]. *)
Definition hide : M Self :=
  let* s := get in
  if CreepyBirdState.eqb (_state s) CreepyBirdState.Empty then ret this
  else
    modify (set_isVisible false);;
    set_display false;;
    _clearInterval;;
    modify (set_state CreepyBirdState.Hide);;
    ret this.

(** [detach()]. *)
Definition detach : M Self :=
  _clearInterval;;
  let* s := get in
  match _videoElement s with
  | None => ret this
  | Some _ =>
      modify (set_resizeObserver false);;
      modify (set_intersectionObserver false);;
      emits (concat (map (fun l => snd (line_clear l)) (_danmakuLines s)));;
      modify (set_danmakuLines []);;
      match overlayElement s with
      | Some el => emit (RemoveOverlay el)
      | None => ret tt
      end;;
      modify (set_overlayElement None);;
      modify (set_videoElement None);;
      modify (set_nextDanmakuIndex None);;
      modify (set_activeDanmaku ∅);;
      modify (set_handlers false);;
      modify (set_state CreepyBirdState.Empty);;
      ret this
  end.

(** [attachToVideo(videoElement)]: the overlay it creates. *)
Definition attachToVideo (h : Host) (videoElement : nat) : M nat :=
  let* s := get in
  (if negb (CreepyBirdState.eqb (_state s) CreepyBirdState.Empty)
   then detach;; ret tt else ret tt);;
  modify (set_videoElement (Some videoElement));;
  let* el := alloc in
  modify (set_overlayElement (Some el));;
  emit (CreateOverlay el videoElement);;
  modify (set_intersectionObserver true);;
  modify (set_resizeObserver true);;
  modify (set_handlers true);;
  updateDanmakuLines h;;
  modify (set_state CreepyBirdState.Hide);;
  ret el.

(** [updatePosition(trigger)], the callback of the two observers. *)
Definition updatePosition (h : Host) : M unit := updateDanmakuLines h.

(** *** Loading *)

(** [String.prototype.toLowerCase] on the ASCII letters. *)
Definition lower_ascii (c : ascii) : ascii :=
  let n := nat_of_ascii c in
  if ((65 <=? n) && (n <=? 90))%nat then ascii_of_nat (n + 32) else c.

Fixpoint toLowerCase (s : string) : string :=
  match s with
  | EmptyString => EmptyString
  | String c r => String (lower_ascii c) (toLowerCase r)
  end.

(** [s.endsWith(suffix)]. *)
Definition endsWith (s suffix : string) : bool :=
  String.prefix (String.rev suffix) (String.rev s).

(** What [_load] resolves with: the [data] of a JSON response, or the text. *)
Inductive Payload := Json (data : list Tuple) | Text (body : string).

(** The event that ends the request: [onerror], or [onload] with the status
    and the response ([response.code], [response.data], [responseText]). *)
Inductive Xhr :=
  | Xhr_error
  | Xhr_load (status : Z) (response_code : Z) (response_data : list Tuple)
             (responseText : string).

(** [_load(url)], from the event to the settled promise: [Throw] is a
    rejection. *)
Definition _load (url : string) (x : Xhr) : Outcome Payload :=
  let json := negb (endsWith (toLowerCase url) ".xml") in
  match x with
  | Xhr_error => Throw "Network request failed"
  | Xhr_load status response_code response_data responseText =>
      if status =? 200 then
        if json then
          if response_code =? 0 then Ok (Json response_data)
          else Throw "Invalid response code"
        else Ok (Text responseText)
      else Throw "HTTP error!"
  end.

(** What [parser.parse(data)] returns. *)
Record Parsed := {
  code : Z;
  parsed_data : list Tuple
}.

(** [data.map(f)] for an [f] that allocates and may throw. *)
Fixpoint map_M {A B} (f : A -> M B) (l : list A) : M (list B) :=
  match l with
  | [] => ret []
  | x :: r =>
      let* y := f x in
      let* ys := map_M f r in
      ret (y :: ys)
  end.

(** [Array.prototype.sort((a, b) => a.time - b.time)].  The language asks
    the sort to be stable and leaves the algorithm open; insertion from the
    right, before the first element that is not earlier, stands for it. *)
Fixpoint insert_by_time (d : Danmaku) (l : list Danmaku) : list Danmaku :=
  match l with
  | [] => [d]
  | x :: r => if Qle_bool (time d) (time x) then d :: l else x :: insert_by_time d r
  end.

Definition sort_by_time (l : list Danmaku) : list Danmaku :=
  foldr insert_by_time [] l.

Definition shown_state (st : CreepyBirdState.t) : bool :=
  negb (CreepyBirdState.eqb st CreepyBirdState.Empty
        || CreepyBirdState.eqb st CreepyBirdState.Hide).

(** The synchronous part of [load(url, format)]: the state it remembers. *)
Definition load_begin : M CreepyBirdState.t :=
  let* s := get in
  let previousState := _state s in
  (if shown_state previousState then hide;; ret tt else ret tt);;
  ret previousState.

(** The end of the [then] callback: back to the state [load] was called in. *)
Definition restore_state (h : Host) (previousState : CreepyBirdState.t) : M unit :=
  if shown_state previousState then
    match previousState with
    | CreepyBirdState.Playing =>
        show h;; modify (set_state CreepyBirdState.Playing)
    | CreepyBirdState.Paused =>
        show h;; pause h;; modify (set_state CreepyBirdState.Paused)
    | _ => ret tt
    end
  else ret tt.

(** The [then] callback of [load]. *)
Definition load_then (h : Host) (parse : Payload -> Outcome Parsed)
    (previousState : CreepyBirdState.t) (format : string) (data : Payload)
  : M (list Danmaku) :=
  let* data :=
    (if String.eqb (toLowerCase format) "bilibilixml" then
       let* parsedData := read (fun _ => parse data) in
       if negb (code parsedData =? 0) then throw "Failed to parse XML data"
       else ret (Json (parsed_data parsedData))
     else ret data) in
  match data with
  | Text _ => throw "TypeError: data.map is not a function"
  | Json tuples =>
      let* ds := map_M new_Danmaku tuples in
      modify (set_data (Some (sort_by_time ds)));;
      restore_state h previousState;;
      let* s := get in
      ret (default [] (_data s))
  end.

(** [load(url, format)], with the event that ends the request; a rejected
    promise is a [Throw]. *)
Definition load (h : Host) (parse : Payload -> Outcome Parsed)
    (url format : string) (x : Xhr) : M (list Danmaku) :=
  let* previousState := load_begin in
  let* data := read (fun _ => _load url x) in
  load_then h parse previousState format data.

(** ** What the invariants speak of *)

(** The items a line holds: its queue, then its fixed item. *)
Definition line_items (l : DanmakuLine) : list DanmakuItem :=
  queue l ++ match fixedItem l with Some it => [it] | None => [] end.

(** The danmaku that have an item on some line. *)
Definition visible (lines : list DanmakuLine) : list nat :=
  map (fun it => oid (danmaku it)) (concat (map line_items lines)).

(** The registry holds exactly the danmaku that have an item on a line. *)
Definition registry_matches (s : CreepyBird) : Prop :=
  forall o : nat, o ∈ _activeDanmaku s <-> o ∈ visible (_danmakuLines s).

(** Non-decreasing times. *)
Definition sorted_by_time (l : list Danmaku) : Prop :=
  forall i j di dj, (i <= j)%nat -> l !! i = Some di -> l !! j = Some dj ->
    (time di <= time dj)%Q.

(** The collection a search runs on: [this._data], or nothing. *)
Definition collection (s : CreepyBird) : list Danmaku := default [] (_data s).

(** [i] is the leftmost position whose time is at least [t]. *)
Definition leftmost_not_before (data : list Danmaku) (t : Q) (i : nat) : Prop :=
  (exists d, data !! i = Some d /\ (t <= time d)%Q) /\
  forall j dj, (j < i)%nat -> data !! j = Some dj -> (time dj < t)%Q.

(** A check of [sorted_by_time] that computes. *)
Fixpoint sortedb (l : list Danmaku) : bool :=
  match l with
  | [] => true
  | x :: r => forallb (fun y => Qle_bool (time x) (time y)) r && sortedb r
  end.

(** *** Engines and hosts the examples run on *)

Definition scroll_at (o : nat) (t : Q) : Danmaku :=
  {| oid := o; time := t; mode := DanmakuType.Float; color := "#ffffff";
     userId := "u"; text := "w" |}.

Definition tuple_at (t : Q) (m : Z) : Tuple :=
  {| t_time := t; t_mode := m; t_color := "#ffffff"; t_userId := "u"; t_text := "w" |}.

(** An engine that holds [data] and nothing else. *)
Definition holding (data : list Danmaku) : CreepyBird := set_data (Some data) constructor.

(** Three comments at the same second. *)
Definition three_at_once : list Danmaku :=
  [scroll_at 1 1; scroll_at 2 1; scroll_at 3 1].

(** The number of an enumerator, and the tuple a danmaku was built from. *)
Definition to_number (m : DanmakuType.t) : Z :=
  match m with
  | DanmakuType.Float => 0
  | DanmakuType.Bottom => 1
  | DanmakuType.Top => 2
  end.

Definition tuple_of (d : Danmaku) : Tuple :=
  {| t_time := time d; t_mode := to_number (mode d); t_color := color d;
     t_userId := userId d; t_text := text d |}.

(** The sequence of the tuples timed [t], in the order of [l]. *)
Definition timed (t : Q) (l : list Tuple) : list Tuple :=
  List.filter (fun x => Qeq_bool (t_time x) t) l.

(** The tuples a load is to store: the [data] of the JSON response, or what
    the parser made of the text. *)
Definition input_tuples (parse : Payload -> Outcome Parsed) (url format : string)
    (x : Xhr) : option (list Tuple) :=
  match _load url x with
  | Ok payload =>
      if String.eqb (toLowerCase format) "bilibilixml" then
        match parse payload with
        | Ok p => Some (parsed_data p)
        | _ => None
        end
      else match payload with Json l => Some l | Text _ => None end
  | _ => None
  end.

(** A host with a 640 by 360 video at second [t], with every item still
    right of the video and its animation running. *)
Definition host_at (t : Q) : Host :=
  {| clientWidth := 640; clientHeight := 360; currentTime := t; video_paused := false;
     rect_right := fun _ => 700%Q; offsetWidth := fun _ => 60%Q;
     playState := fun _ => Some PlayState.running |}.

(** A parser that finds nothing. *)
Definition parse_nothing (p : Payload) : Outcome Parsed :=
  Ok {| code := 0; parsed_data := [] |}.

(** An engine attached to video [0]. *)
Definition attached : CreepyBird := exec (attachToVideo (host_at 0) 0%nat) constructor.

(** A reply whose tuples are out of order, with two ties. *)
Definition mixed_reply : Xhr :=
  Xhr_load 200 0 [tuple_at 2 0; tuple_at 1 1; tuple_at 2 2; tuple_at 1 0] "".

Definition load_mixed : M (list Danmaku) :=
  load (host_at 0) parse_nothing "d.json" "json" mixed_reply.

(** An engine that is playing the danmaku of [mixed_reply]. *)
Definition playing : CreepyBird :=
  exec (show (host_at 0)) (exec load_mixed attached).

(** ** Histories *)

(** What happens to an engine: a method is called, or the timer, an observer
    or the video calls back. *)
Inductive Event :=
  | Call_attachToVideo (videoElement : nat)
  | Call_detach
  | Call_load (url format : string) (x : Xhr)
  | Call_show
  | Call_hide
  | Call_pause
  | Call_resume
  | Call_seek (t : Q)
  | Call_setFontSize (size : Q)
  | Call_setLineMargin (margin : Q)
  | Call_setDebug (enabled : bool)
  | Call_loadDanmaku (fuel : nat) (t : Q)
  | Call_cleanupDanmaku
  | Call_updateDanmakuLines
  | Timer (fuel : nat)   (* the interval fires *)
  | Observer             (* the video was resized or scrolled *)
  | Video_play
  | Video_pause
  | Video_seeking.

Definition drop {A} (m : M A) : M unit := m;; ret tt.

(** The engine's reaction, on a host [h] and with a decoder [parse]. *)
Definition handle (h : Host) (parse : Payload -> Outcome Parsed) (e : Event) : M unit :=
  match e with
  | Call_attachToVideo v => drop (attachToVideo h v)
  | Call_detach => drop detach
  | Call_load url format x => drop (load h parse url format x)
  | Call_show => drop (show h)
  | Call_hide => drop hide
  | Call_pause => drop (pause h)
  | Call_resume => drop (resume h)
  | Call_seek t => seek t
  | Call_setFontSize size => drop (setFontSize size)
  | Call_setLineMargin margin => drop (setLineMargin margin)
  | Call_setDebug enabled => drop (setDebug enabled)
  | Call_loadDanmaku fuel t => loadDanmaku fuel h t
  | Call_cleanupDanmaku => cleanupDanmaku h
  | Call_updateDanmakuLines => updateDanmakuLines h
  | Timer fuel =>
      let* s := get in
      match _intervalId s with Some _ => tick fuel h | None => ret tt end
  | Observer =>
      let* s := get in
      if _resizeObserver s || _intersectionObserver s then updatePosition h else ret tt
  | Video_play =>
      let* s := get in if _handlers s then drop (resume h) else ret tt
  | Video_pause =>
      let* s := get in if _handlers s then drop (pause h) else ret tt
  | Video_seeking =>
      let* s := get in if _handlers s then seek (currentTime h) else ret tt
  end.

(** The event makes [hide()] run from a state that is not Empty: a call of
    [hide], or a [load] that finds the engine Playing or Paused. *)
Definition runs_hide (e : Event) (s : CreepyBird) : bool :=
  match e with
  | Call_hide => negb (CreepyBirdState.eqb (_state s) CreepyBirdState.Empty)
  | Call_load _ _ _ => shown_state (_state s)
  | _ => false
  end.

(** The fields the scheduler, the cleanup and the resize never write. *)
Definition lifecycle (s : CreepyBird) :=
  (overlayElement s, _data s, _isVisible s, _intervalId s, _videoElement s,
   (danmakuSpeed s, _fontSize s, _lineSpacing s, _lineMargin s),
   (_debug s, _handlers s, _state s, _resizeObserver s, _intersectionObserver s)).

(** A scrolling item may enter the line: the queue is empty, or the gap
    between its last item and the far edge is at least the line margin. *)
Definition leaves_room (h : Host) (s : CreepyBird) (l : DanmakuLine) : Prop :=
  queue l = [] \/
  exists it, last (queue l) = Some it /\
    (_lineMargin s <= clientWidth h - rect_right h (element it))%Q.

(** What [pickLine] is to answer for an item of mode [m]. *)
Definition picked (h : Host) (s : CreepyBird) (m : DanmakuType.t) (r : option nat) : Prop :=
  let lines := _danmakuLines s in
  match m, r with
  | DanmakuType.Float, Some i =>
      (exists l, lines !! i = Some l /\ leaves_room h s l) /\
      forall j l, (j < i)%nat -> lines !! j = Some l -> ~ leaves_room h s l
  | DanmakuType.Float, None =>
      forall l, l ∈ lines -> ~ leaves_room h s l
  | DanmakuType.Bottom, Some i =>
      (exists l, lines !! i = Some l /\ fixedItem l = None) /\
      forall j l, (i < j)%nat -> lines !! j = Some l -> fixedItem l <> None
  | DanmakuType.Top, Some i =>
      (exists l, lines !! i = Some l /\ fixedItem l = None) /\
      forall j l, (j < i)%nat -> lines !! j = Some l -> fixedItem l <> None
  | _, None =>
      forall l, l ∈ lines -> fixedItem l <> None
  end.

(** An item for a danmaku of mode [m]. *)
Definition item_of_mode (m : DanmakuType.t) : DanmakuItem :=
  {| danmaku := {| oid := 90; time := 1; mode := m; color := "#ffffff";
                   userId := "u"; text := "w" |};
     element := 91 |}.

(** The danmaku at position [i] of the collection. *)
Definition danmaku_at (s : CreepyBird) (i : nat) : Danmaku :=
  default (scroll_at 0 0) (collection s !! i).

(** The state a round of the loop of [loadDanmaku] leaves. *)
Definition round (h : Host) (t : Q) (s : CreepyBird) : CreepyBird :=
  exec (loadDanmaku_body h t) s.

(** *** A video with room for one line *)

(** As [host_at], for a video 30 pixels high. *)
Definition narrow_host (t : Q) : Host :=
  {| clientWidth := 640; clientHeight := 30; currentTime := t; video_paused := false;
     rect_right := fun _ => 700%Q; offsetWidth := fun _ => 60%Q;
     playState := fun _ => Some PlayState.running |}.

(** Two scrolling comments at second 1, the last of their file. *)
Definition two_at_once : Xhr := Xhr_load 200 0 [tuple_at 1 0; tuple_at 1 0] "".

(** An engine playing them on that video. *)
Definition crowded : CreepyBird :=
  exec (show (narrow_host 1))
    (exec (load (narrow_host 1) parse_nothing "d.json" "json" two_at_once)
       (exec (attachToVideo (narrow_host 1) 0%nat) constructor)).

(** [crowded] two rounds into the tick at second 1, and the same state with
    another next index, allocator and trace. *)
Definition crowded2 : CreepyBird := round (narrow_host 1) 1 (round (narrow_host 1) 1 crowded).

Definition crowded_at (c hp : nat) (dm : list DomOp) : CreepyBird :=
  set_dom dm (set_heap hp (set_nextDanmakuIndex (Some c) crowded2)).

(** *** A video that shrinks *)

(** [playing] after the tick at second 0.95. *)
Definition showing : CreepyBird := exec (tick 5 (host_at (95 # 100))) playing.

(** As [host_at], for a video 200 pixels high. *)
Definition shrunk_host (t : Q) : Host :=
  {| clientWidth := 640; clientHeight := 200; currentTime := t; video_paused := false;
     rect_right := fun _ => 700%Q; offsetWidth := fun _ => 60%Q;
     playState := fun _ => Some PlayState.running |}.

(** [showing] once the resize observer has reported the new height. *)
Definition shrunk : CreepyBird :=
  exec (handle (shrunk_host (95 # 100)) parse_nothing Observer) showing.

(** ** Relating the state a method meets to the state it leaves *)

(** However [m] ends, the state it leaves is related by [R] to the one it
    met. *)
Definition respects (R : CreepyBird -> CreepyBird -> Prop) {A} (m : M A) : Prop :=
  forall s o s', m s = (o, s') -> R s s'.

(** [m] leaves [f] of the state as it was. *)
Abbreviation preserves f m := (respects (fun s s' => f s' = f s) m).

(** The order of the times of two danmaku. *)
Definition time_le (a b : Danmaku) : Prop := (time a <= time b)%Q.

(** ** States an engine can be in *)

(** The states reached from [constructor()] by events, on any hosts. *)
Inductive reachable (parse : Payload -> Outcome Parsed) : CreepyBird -> Prop :=
  | reachable_constructor : reachable parse constructor
  | reachable_handle (h : Host) (e : Event) (s : CreepyBird) :
      reachable parse s -> reachable parse (exec (handle h parse e) s).

(** The lines are distinct objects, allocated before now, and there are
    lines only while a video is attached. *)
Definition well_formed (s : CreepyBird) : Prop :=
  NoDup (map lid (_danmakuLines s)) /\
  Forall (fun l => (lid l < heap s)%nat) (_danmakuLines s) /\
  (_danmakuLines s <> [] -> is_Some (_videoElement s)).

(** Which objects the lines are, and the video. *)
Definition lines_shape (s : CreepyBird) : list nat * option nat :=
  (map lid (_danmakuLines s), _videoElement s).

(** The allocator only moves forward. *)
Definition heap_le (s s' : CreepyBird) : Prop := (heap s <= heap s')%nat.

(** The danmaku of a sequence of items. *)
Definition oids (items : list DanmakuItem) : list nat :=
  map (fun it => oid (danmaku it)) items.

(** The registry holds the danmaku on the lines, and none has two items. *)
Definition registry_exact (s : CreepyBird) : Prop :=
  registry_matches s /\ NoDup (visible (_danmakuLines s)).

(** The lines and the registry. *)
Definition lines_registry (s : CreepyBird) : list DanmakuLine * gset nat :=
  (_danmakuLines s, _activeDanmaku s).

(** The event runs a resize that can pop lines holding items: a resize to
    fewer lines, or an attach on an engine left with lines in Empty. *)
Definition may_discard (h : Host) (e : Event) (s : CreepyBird) : Prop :=
  match e with
  | Observer | Call_updateDanmakuLines =>
      Lines_ltb (calAvailableLines h s) (length (_danmakuLines s)) = true
  | Call_attachToVideo _ =>
      _state s = CreepyBirdState.Empty /\ _danmakuLines s <> []
  | _ => False
  end.

(** The states reached by events none of which may discard items. *)
Inductive reachable_keeping (parse : Payload -> Outcome Parsed) : CreepyBird -> Prop :=
  | keeping_constructor : reachable_keeping parse constructor
  | keeping_handle (h : Host) (e : Event) (s : CreepyBird) :
      reachable_keeping parse s -> ~ may_discard h e s ->
      reachable_keeping parse (exec (handle h parse e) s).

(** Strictly increasing times: no two danmaku at the same time. *)
Definition strictly_sorted_by_time (l : list Danmaku) : Prop :=
  forall i j di dj, (i < j)%nat -> l !! i = Some di -> l !! j = Some dj ->
    (time di < time dj)%Q.

(** * Properties *)

#[local] Set Warnings "-clear-no-such-hyp".

(** ** The time lookup *)

Lemma mid_bounds (lo hi : Z) : lo <= hi -> lo <= (lo + hi) / 2 <= hi.
Proof.
  intros H. split.
  - apply Z.div_le_lower_bound; lia.
  - apply Z.div_le_upper_bound; lia.
Qed.

Lemma sortedb_sound (l : list Danmaku) : sortedb l = true -> sorted_by_time l.
Proof.
  induction l as [| x r IH]; intros Hb i j di dj Hij Hi Hj.
  - by rewrite lookup_nil in Hi.
  - simpl in Hb. apply andb_true_iff in Hb as [Hx Hr].
    destruct i as [| i]; simpl in Hi.
    + injection Hi as <-. destruct j as [| j]; simpl in Hj.
      * injection Hj as <-. apply Qle_refl.
      * apply Qle_bool_iff.
        rewrite forallb_forall in Hx. apply Hx.
        apply list_elem_of_In, list_elem_of_lookup. eauto.
    + destruct j as [| j]; [lia |]. simpl in Hj.
      apply (IH Hr i j); [lia | done | done].
Qed.

(** The loop keeps every time left of [lo] below [t] and every time right
    of [hi] above it, until it meets the time [t] itself or the bounds
    cross. *)
Lemma search_loop_spec (data : list Danmaku) (t : Q) (lo hi : Z) :
  sorted_by_time data ->
  0 <= lo -> hi < Z.of_nat (length data) -> lo <= hi + 1 ->
  (forall j dj, Z.of_nat j < lo -> data !! j = Some dj -> (time dj < t)%Q) ->
  (forall j dj, hi < Z.of_nat j -> data !! j = Some dj -> (t < time dj)%Q) ->
  match search_loop data t lo hi with
  | Some i =>
      exists d, data !! i = Some d /\
        ((time d == t)%Q \/
         ((t < time d)%Q /\
          forall j dj, (j < i)%nat -> data !! j = Some dj -> (time dj < t)%Q))
  | None => forall d, d ∈ data -> (time d < t)%Q
  end.
Proof.
  intros Hs. funelim (search_loop data t lo hi); intros Hlo Hhi Hle Hbelow Habove.
  - (* the bounds have crossed *)
    clear Heqcall. pose proof (proj1 (Z.leb_gt _ _) e) as Hgt.
    destruct (Z.ltb_spec lo (Z.of_nat (length data))) as [Hlt | Hge].
    + destruct (lookup_lt_is_Some_2 data (Z.to_nat lo) ltac:(lia)) as [d Hd].
      exists d. split; [done |]. right. split.
      * apply (Habove (Z.to_nat lo)); [lia | done].
      * intros j dj Hj. apply Hbelow. lia.
    + intros d Hd. apply list_elem_of_lookup in Hd as [j Hj].
      apply (Hbelow j); [| done]. apply lookup_lt_Some in Hj. lia.
  - (* a probe *)
    clear Heqcall. pose proof (mid_bounds lo hi (proj1 (Z.leb_le _ _) e)) as Hmid.
    set (mid := (lo + hi) / 2) in *.
    destruct (Qeq_bool (time d) t) eqn:Heq.
    + exists d. split; [done |]. left. by apply Qeq_bool_iff.
    + assert (Hne : ~ (time d == t)%Q)
        by (intros Hc; apply Qeq_bool_iff in Hc; congruence).
      destruct (Qlt_le_dec (time d) t) as [Hlt | Hge].
      * apply H; [done | done | lia | lia | lia | |].
        -- intros j dj Hj Hdj.
           apply Qle_lt_trans with (time d); [| done].
           apply (Hs j (Z.to_nat mid)); [lia | done | done].
        -- intros j dj Hj. apply Habove. lia.
      * apply H0; [done | done | lia | lia | lia | |].
        -- intros j dj Hj. apply Hbelow. lia.
        -- intros j dj Hj Hdj.
           apply Qlt_le_trans with (time d).
           ++ apply Qle_lteq in Hge as [Hlt | Heq']; [done |].
              exfalso. apply Hne. by symmetry.
           ++ apply (Hs (Z.to_nat mid) j); [lia | done | done].
  - (* a probe outside the array does not happen *)
    exfalso. pose proof (mid_bounds lo hi (proj1 (Z.leb_le _ _) e)) as Hmid.
    pose proof (proj1 (lookup_ge_None _ _) e0). lia.
Qed.

(** What the bisection finds on a collection sorted by time. *)
Lemma searchCurDanmaku_bisects (s : CreepyBird) (t : Q) :
  sorted_by_time (collection s) ->
  (collection s = [] -> searchCurDanmaku s t 0 = None) /\
  (searchCurDanmaku s t 0 = None <->
   forall d, d ∈ collection s -> (time d < t)%Q) /\
  (forall i, searchCurDanmaku s t 0 = Some i ->
     exists d, collection s !! i = Some d /\
       ((time d == t)%Q \/ ((t < time d)%Q /\ leftmost_not_before (collection s) t i))).
Proof.
  intros Hs. unfold searchCurDanmaku, collection in *.
  destruct (_data s) as [data |]; simpl in *.
  2: { split; [done |]. split; [| done]. split; [| done].
       intros _ d Hd. by apply elem_of_nil in Hd. }
  destruct data as [| d0 data'].
  { split; [done |]. split; [| done]. split; [| done].
    intros _ d Hd. by apply elem_of_nil in Hd. }
  set (data := d0 :: data') in *.
  change ((length data =? 0)%nat) with false. cbv iota.
  pose proof (search_loop_spec data t (Z.of_nat 0) (Z.of_nat (length data) - 1) Hs
                ltac:(lia) ltac:(lia) ltac:(simpl; lia)) as Hloop.
  specialize (Hloop ltac:(intros; lia)).
  specialize (Hloop ltac:(intros j dj Hj Hdj; apply lookup_lt_Some in Hdj; lia)).
  destruct (search_loop data t (Z.of_nat 0) (Z.of_nat (length data) - 1)) as [i |].
  - destruct Hloop as (d & Hd & Hcase).
    split; [done |]. split.
    + split; [done |]. intros Hall. exfalso.
      assert (Hin : d ∈ data) by (apply list_elem_of_lookup; eauto).
      specialize (Hall d Hin).
      destruct Hcase as [Heq | [Hlt _]].
      * rewrite Heq in Hall. by apply Qlt_irrefl in Hall.
      * apply (Qlt_irrefl t). by apply Qlt_trans with (time d).
    + intros i' [= <-]. exists d. split; [done |].
      destruct Hcase as [Heq | [Hlt Hleft]]; [by left | right].
      split; [done |]. split; [| done].
      exists d. split; [done |]. by apply Qlt_le_weak.
  - split; [done |]. split; [done |]. intros i [=].
Qed.

(** C2, as amended.  On a collection sorted by time, [searchCurDanmaku]
    answers [null] exactly when every time is below the query (so always on
    an empty or absent collection); otherwise it answers a position inside
    the collection that either holds the query time itself, or holds a later
    time and is the leftmost position that is not before the query. *)
Theorem searchCurDanmaku_sorted (s : CreepyBird) (t : Q) :
  sorted_by_time (collection s) ->
  (collection s = [] -> searchCurDanmaku s t 0 = None) /\
  (searchCurDanmaku s t 0 = None <->
   forall d, d ∈ collection s -> (time d < t)%Q) /\
  (forall i, searchCurDanmaku s t 0 = Some i ->
     exists d, collection s !! i = Some d /\
       ((time d == t)%Q \/ ((t < time d)%Q /\ leftmost_not_before (collection s) t i))).
Proof.
  intros Hs. destruct (searchCurDanmaku_bisects s t Hs) as (Hnil & Hnone & Hsome).
  split; [exact Hnil |]. split; [exact Hnone |].
  intros i Hi. destruct (Hsome i Hi) as (d & Hd & Hcase). by exists d.
Qed.

Lemma searchCurDanmaku_sorted_witness :
  searchCurDanmaku (holding three_at_once) 1 0 = Some 1%nat /\
  exists d, collection (holding three_at_once) !! 1%nat = Some d /\
    ((time d == 1)%Q \/
     ((1 < time d)%Q /\ leftmost_not_before (collection (holding three_at_once)) 1 1)).
Proof.
  split; [reflexivity |].
  apply (searchCurDanmaku_sorted (holding three_at_once) 1).
  - apply sortedb_sound. reflexivity.
  - reflexivity.
Defined.

(** Where no two danmaku have the same time, the answer is the leftmost
    position that is not before the query. *)
Lemma searchCurDanmaku_leftmost_unique (s : CreepyBird) (t : Q) (i : nat) :
  strictly_sorted_by_time (collection s) ->
  searchCurDanmaku s t 0 = Some i ->
  leftmost_not_before (collection s) t i.
Proof.
  intros Hstrict Hsearch.
  assert (Hs : sorted_by_time (collection s)).
  { intros a b da db Hab Ha Hb. destruct (decide (a = b)) as [-> | Hne].
    - rewrite Ha in Hb. injection Hb as <-. apply Qle_refl.
    - apply Qlt_le_weak, (Hstrict a b); [lia | done | done]. }
  destruct (searchCurDanmaku_bisects s t Hs) as (_ & _ & Hsome).
  destruct (Hsome i Hsearch) as (d & Hd & [Heq | [_ Hleft]]); [| done].
  split.
  - exists d. split; [done |]. rewrite Heq. apply Qle_refl.
  - intros j dj Hj Hdj. rewrite <- Heq. by apply (Hstrict j i).
Qed.

(** C2, as stated, fails: of three comments at second 1 the search for
    second 1 answers the middle one, which is not the leftmost. *)
Lemma searchCurDanmaku_not_leftmost :
  ~ (forall (s : CreepyBird) (t : Q),
       sorted_by_time (collection s) ->
       forall i, searchCurDanmaku s t 0 = Some i ->
                 leftmost_not_before (collection s) t i).
Proof.
  intros Hclaim.
  specialize (Hclaim (holding three_at_once) 1%Q
                (sortedb_sound three_at_once eq_refl) 1%nat eq_refl).
  destruct Hclaim as [_ Hleft].
  specialize (Hleft 0%nat (scroll_at 1 1) ltac:(lia) eq_refl).
  revert Hleft. unfold Qlt. simpl. lia.
Qed.

(** ** Running a method *)

Ltac mstep :=
  cbv beta iota zeta delta
    [bind ret modify get emit emits throw hang read alloc exec outcome] in *;
  simpl in *.

Ltac msolve := repeat (mstep; try case_match; simplify_eq/=); try done.

(** ** Loading sorts *)

Lemma insert_by_time_Permutation (d : Danmaku) (l : list Danmaku) :
  insert_by_time d l ≡ₚ d :: l.
Proof.
  induction l as [| x r IH]; simpl; [done |].
  destruct (Qle_bool (time d) (time x)); [done |].
  rewrite IH. apply Permutation_swap.
Qed.

Lemma sort_by_time_Permutation (l : list Danmaku) : sort_by_time l ≡ₚ l.
Proof.
  induction l as [| x r IH]; simpl; [done |].
  by rewrite insert_by_time_Permutation, IH.
Qed.

Lemma insert_by_time_sorted (d : Danmaku) (l : list Danmaku) :
  StronglySorted time_le l -> StronglySorted time_le (insert_by_time d l).
Proof.
  induction l as [| x r IH]; intros Hl; simpl.
  - repeat constructor.
  - apply StronglySorted_inv in Hl as [Hr Hx].
    destruct (Qle_bool (time d) (time x)) eqn:Hle.
    + apply Qle_bool_iff in Hle. constructor.
      * by constructor.
      * constructor; [done |].
        eapply Forall_impl; [exact Hx |].
        intros y Hy. unfold time_le in *. by apply Qle_trans with (time x).
    + assert (Hlt : (time x < time d)%Q).
      { apply Qnot_le_lt. intros Hc. apply Qle_bool_iff in Hc. congruence. }
      constructor; [by apply IH |].
      rewrite insert_by_time_Permutation. constructor; [| done].
      by apply Qlt_le_weak.
Qed.

Lemma sort_by_time_StronglySorted (l : list Danmaku) :
  StronglySorted time_le (sort_by_time l).
Proof.
  induction l as [| x r IH]; simpl; [constructor |].
  by apply insert_by_time_sorted.
Qed.

Lemma StronglySorted_sorted_by_time (l : list Danmaku) :
  StronglySorted time_le l -> sorted_by_time l.
Proof.
  induction 1 as [| x r Hr IH Hx]; intros i j di dj Hij Hi Hj.
  - by rewrite lookup_nil in Hi.
  - destruct i as [| i]; simpl in Hi.
    + injection Hi as <-. destruct j as [| j]; simpl in Hj.
      * injection Hj as <-. apply Qle_refl.
      * rewrite Forall_forall in Hx. apply Hx.
        apply list_elem_of_lookup. eauto.
    + destruct j as [| j]; [lia |]. simpl in Hj.
      apply (IH i j); [lia | done | done].
Qed.

(** Insertion never lets a danmaku overtake one of the same time. *)
Lemma insert_by_time_stable (t : Q) (d : Danmaku) (l : list Danmaku) :
  List.filter (fun x => Qeq_bool (time x) t) (insert_by_time d l) =
  List.filter (fun x => Qeq_bool (time x) t) (d :: l).
Proof.
  induction l as [| x r IH]; [done |].
  cbn [insert_by_time].
  destruct (Qle_bool (time d) (time x)) eqn:Hle; [done |].
  assert (Hlt : (time x < time d)%Q).
  { apply Qnot_le_lt. intros Hc. apply Qle_bool_iff in Hc. congruence. }
  cbn [List.filter] in *. rewrite IH.
  destruct (Qeq_bool (time x) t) eqn:Hx, (Qeq_bool (time d) t) eqn:Hd; try done.
  apply Qeq_bool_iff in Hx, Hd. rewrite Hx, Hd in Hlt.
  by apply Qlt_irrefl in Hlt.
Qed.

Lemma sort_by_time_stable (t : Q) (l : list Danmaku) :
  List.filter (fun x => Qeq_bool (time x) t) (sort_by_time l) =
  List.filter (fun x => Qeq_bool (time x) t) l.
Proof.
  induction l as [| x r IH]; [done |].
  cbn [sort_by_time foldr]. rewrite insert_by_time_stable.
  cbn [List.filter]. fold (sort_by_time r). by rewrite IH.
Qed.

Lemma timed_tuple_of (t : Q) (l : list Danmaku) :
  timed t (map tuple_of l) =
  map tuple_of (List.filter (fun x => Qeq_bool (time x) t) l).
Proof.
  induction l as [| x r IH]; [done |].
  unfold timed in *. simpl. rewrite IH. by destruct (Qeq_bool (time x) t).
Qed.

Lemma of_number_to_number (n : Z) (m : DanmakuType.t) :
  DanmakuType.of_number n = Some m -> to_number m = n.
Proof.
  unfold DanmakuType.of_number.
  repeat case_match; intros [= <-]; simpl; lia.
Qed.

Lemma new_Danmaku_tuple_of (t : Tuple) (s s' : CreepyBird) (d : Danmaku) :
  new_Danmaku t s = (Ok d, s') -> tuple_of d = t.
Proof.
  unfold new_Danmaku, _validateMode. intros H.
  destruct (DanmakuType.of_number (t_mode t)) as [m |] eqn:Hm; msolve.
  unfold tuple_of. simpl. rewrite (of_number_to_number _ _ Hm). by destruct t.
Qed.

Lemma map_M_new_Danmaku (tuples : list Tuple) (s s' : CreepyBird) (ds : list Danmaku) :
  map_M new_Danmaku tuples s = (Ok ds, s') ->
  map tuple_of ds = tuples /\ _state s' = _state s.
Proof.
  revert s ds. induction tuples as [| t r IH]; intros s ds H.
  - simpl in H. unfold ret in H. by simplify_eq/=.
  - simpl in H. unfold bind at 1 in H.
    destruct (new_Danmaku t s) as [[d | e |] s1] eqn:Hd; try done.
    unfold bind at 1 in H.
    destruct (map_M new_Danmaku r s1) as [[ds' | e |] s2] eqn:Hr; try done.
    unfold ret in H. simplify_eq/=.
    destruct (IH _ _ Hr) as [Hmap Hst].
    simpl. rewrite (new_Danmaku_tuple_of _ _ _ _ Hd), Hmap. split; [done |].
    rewrite Hst. revert Hd. unfold new_Danmaku, _validateMode. msolve.
    by intros [= <- <-].
Qed.

(** What the lifecycle methods leave alone. *)
Ltac unfold_lifecycle :=
  unfold restore_state, show, hide, pause, resume, _startInterval, _clearInterval,
    set_display, seek, isVisible, setDebug, setFontSize, setLineMargin in *.

Lemma restore_state_data (h : Host) (prev : CreepyBirdState.t) (s : CreepyBird) :
  _data (exec (restore_state h prev) s) = _data s.
Proof. unfold_lifecycle. destruct prev; msolve. Qed.

Lemma restore_state_returns (h : Host) (prev : CreepyBirdState.t) (s : CreepyBird) :
  outcome (restore_state h prev) s = Ok tt.
Proof. unfold_lifecycle. destruct prev; msolve. Qed.



(** ** A load that fails *)

Lemma load_begin_spec (s : CreepyBird) :
  exists s0, load_begin s = (Ok (_state s), s0) /\
    _data s0 = _data s /\
    _state s0 = (if shown_state (_state s) then CreepyBirdState.Hide else _state s).
Proof.
  unfold load_begin. unfold_lifecycle.
  destruct s as [ov da vi iv ve sp fs ls lm li nx ac db hd st ro io hp dm].
  destruct st, iv, ov; mstep; eexists; (split; [reflexivity |]); done.
Qed.

Lemma map_M_new_Danmaku_frame (tuples : list Tuple) (s s' : CreepyBird)
    (o : Outcome (list Danmaku)) :
  map_M new_Danmaku tuples s = (o, s') ->
  _data s' = _data s /\ _state s' = _state s.
Proof.
  revert s s' o. induction tuples as [| t r IH]; intros s s' o H.
  - simpl in H. unfold ret in H. by simplify_eq/=.
  - simpl in H. unfold bind at 1 in H.
    destruct (new_Danmaku t s) as [o1 s1] eqn:Hd.
    assert (Hs1 : _data s1 = _data s /\ _state s1 = _state s).
    { revert Hd. unfold new_Danmaku, _validateMode. msolve; by intros [= <- <-]. }
    destruct Hs1 as [Hd1 Hst1].
    destruct o1 as [d | e |]; try (simplify_eq/=; done).
    unfold bind at 1 in H.
    destruct (map_M new_Danmaku r s1) as [o2 s2] eqn:Hr.
    destruct (IH _ _ _ Hr) as [IHd IHst].
    destruct o2; unfold ret in H; simplify_eq/=; split; congruence.
Qed.

(** Whenever [load] ends in a rejection, the collection is the one held
    before; the lifecycle is the one held before only if that was Empty or
    Hide, and is Hide otherwise. *)
Lemma load_rejected (h : Host) (parse : Payload -> Outcome Parsed)
    (url format : string) (x : Xhr) (s s' : CreepyBird) (e : string) :
  load h parse url format x s = (Throw e, s') ->
  _data s' = _data s /\
  _state s' = (if shown_state (_state s) then CreepyBirdState.Hide else _state s).
Proof.
  unfold load. intros H. unfold bind at 1 in H.
  destruct (load_begin_spec s) as (s0 & Hb & Hd0 & Hst0).
  rewrite Hb in H. rewrite <- Hd0, <- Hst0. clear Hb Hd0 Hst0.
  unfold bind at 1, read at 1 in H.
  destruct (_load url x) as [payload | e' |]; [| by simplify_eq/= | done].
  unfold load_then in H.
  assert (Hin : (exists tuples,
    (let* ds := map_M new_Danmaku tuples in
     modify (set_data (Some (sort_by_time ds)));;
     restore_state h (_state s);;
     let* s := get in ret (default [] (_data s))) s0 = (Throw e, s')) \/ s' = s0).
  { unfold bind at 1 in H.
    destruct (String.eqb (toLowerCase format) "bilibilixml").
    - unfold bind at 1, read at 1 in H.
      destruct (parse payload) as [p | e' |]; [| right; by simplify_eq/= | done].
      destruct (negb (code p =? 0)); [right; unfold throw in H; by simplify_eq/= |].
      unfold ret at 1 in H. eauto.
    - unfold ret at 1 in H. destruct payload as [l | b]; [eauto |].
      right. unfold throw in H. by simplify_eq/=. }
  clear H. destruct Hin as [(tuples & H) | ->]; [| done].
  unfold bind at 1 in H.
  destruct (map_M new_Danmaku tuples s0) as [o1 s1] eqn:Hmap.
  destruct (map_M_new_Danmaku_frame _ _ _ _ Hmap) as [Hd Hst].
  destruct o1 as [ds | e' |]; [| by simplify_eq/= | done].
  unfold bind at 1, modify at 1 in H. unfold bind at 1 in H.
  pose proof (restore_state_returns h (_state s) (set_data (Some (sort_by_time ds)) s1)) as Ho.
  unfold outcome in Ho.
  destruct (restore_state h (_state s) (set_data (Some (sort_by_time ds)) s1)) as [o s2].
  simpl in Ho. subst o. done.
Qed.

(** C6 on the code.  The request of a playing engine fails: the promise is
    rejected and the collection is kept, but the engine is left in Hide and
    not in Playing, the state it was in when [load] was called. *)
Theorem load_failure_leaves_Hide :
  _state playing = CreepyBirdState.Playing /\
  outcome (load (host_at 0) parse_nothing "d.json" "json" Xhr_error) playing
    = Throw "Network request failed" /\
  _data (exec (load (host_at 0) parse_nothing "d.json" "json" Xhr_error) playing)
    = _data playing /\
  _state (exec (load (host_at 0) parse_nothing "d.json" "json" Xhr_error) playing)
    = CreepyBirdState.Hide.
Proof.
  split; [| split; [| split]]; vm_compute; reflexivity.
Qed.

(** ** Pausing and resuming *)

(** C8.  From Playing, [pause()] leaves the engine Paused and [resume()]
    brings it back to Playing; after either, the active set and every line
    are what they were, and the surface was only asked to pause and to play
    the animations of the queued items. *)
Theorem pause_resume_keeps_items (h1 h2 : Host) (s : CreepyBird) :
  _state s = CreepyBirdState.Playing ->
  let s1 := exec (pause h1) s in
  let s2 := exec (resume h2) s1 in
  (outcome (pause h1) s = Ok this /\
   _state s1 = CreepyBirdState.Paused /\
   _activeDanmaku s1 = _activeDanmaku s /\
   _danmakuLines s1 = _danmakuLines s) /\
  (outcome (resume h2) s1 = Ok this /\
   _state s2 = CreepyBirdState.Playing /\
   _activeDanmaku s2 = _activeDanmaku s /\
   _danmakuLines s2 = _danmakuLines s /\
   dom s2 = reverse (map PlayAnimation (animated h2 (_danmakuLines s))) ++
            reverse (map PauseAnimation (animated h1 (_danmakuLines s))) ++ dom s).
Proof.
  intros Hst.
  destruct s as [ov da vi iv ve sp fs ls lm li nx ac db hd st ro io hp dm].
  simpl in Hst. subst st.
  unfold_lifecycle. destruct iv; mstep; done.
Qed.

Lemma pause_resume_keeps_items_witness :
  let s1 := exec (pause (host_at 1)) playing in
  let s2 := exec (resume (host_at 2)) s1 in
  (outcome (pause (host_at 1)) playing = Ok this /\
   _state s1 = CreepyBirdState.Paused /\
   _activeDanmaku s1 = _activeDanmaku playing /\
   _danmakuLines s1 = _danmakuLines playing) /\
  (outcome (resume (host_at 2)) s1 = Ok this /\
   _state s2 = CreepyBirdState.Playing /\
   _activeDanmaku s2 = _activeDanmaku playing /\
   _danmakuLines s2 = _danmakuLines playing /\
   dom s2 = reverse (map PlayAnimation (animated (host_at 2) (_danmakuLines playing))) ++
            reverse (map PauseAnimation (animated (host_at 1) (_danmakuLines playing))) ++
            dom playing).
Proof.
  apply (pause_resume_keeps_items (host_at 1) (host_at 2) playing).
  vm_compute. reflexivity.
Defined.

(** ** The two setters *)

(** C10.  [setFontSize] stores whatever size it is given and returns the
    engine, never throwing; [setLineMargin] throws on a negative margin and
    leaves the engine as it was. *)
Theorem setFontSize_stores_any (size margin : Q) (s : CreepyBird) :
  (margin < 0)%Q ->
  setFontSize size s = (Ok this, set_fontSize size s) /\
  _fontSize (exec (setFontSize size) s) = size /\
  setLineMargin margin s = (Throw "Line margin must be non-negative", s).
Proof.
  intros Hneg. split; [done |]. split; [done |].
  unfold setLineMargin. destruct (Qlt_le_dec margin 0) as [_ | Hge]; [done |].
  exfalso. by apply (Qlt_not_le _ _ Hneg).
Qed.

Lemma setFontSize_stores_any_witness :
  setFontSize (-3) constructor = (Ok this, set_fontSize (-3) constructor) /\
  _fontSize (exec (setFontSize (-3)) constructor) = (-3)%Q /\
  setLineMargin (-1) constructor = (Throw "Line margin must be non-negative", constructor).
Proof.
  apply (setFontSize_stores_any (-3) (-1) constructor). reflexivity.
Defined.

(** ** Frames *)

Section Respects.
Context (R : CreepyBird -> CreepyBird -> Prop).
Hypothesis R_refl : forall s, R s s.
Hypothesis R_trans : forall s1 s2 s3, R s1 s2 -> R s2 s3 -> R s1 s3.

Lemma respects_ret {A} (a : A) : respects R (ret a).
Proof using R_refl. intros s o s' H. unfold ret in H. by simplify_eq/=. Qed.

Lemma respects_throw {A} (e : string) : respects R (@throw A e).
Proof using R_refl. intros s o s' H. unfold throw in H. by simplify_eq/=. Qed.

Lemma respects_hang {A} : respects R (@hang A).
Proof using R_refl. intros s o s' H. unfold hang in H. by simplify_eq/=. Qed.

Lemma respects_get : respects R get.
Proof using R_refl. intros s o s' H. unfold get in H. by simplify_eq/=. Qed.

Lemma respects_read {A} (g : CreepyBird -> Outcome A) : respects R (read g).
Proof using R_refl. intros s o s' H. unfold read in H. by simplify_eq/=. Qed.

Lemma respects_modify (g : CreepyBird -> CreepyBird) :
  (forall s, R s (g s)) -> respects R (modify g).
Proof using Type. intros Hg s o s' H. unfold modify in H. by simplify_eq/=. Qed.

Lemma respects_alloc :
  (forall s, R s (set_heap (S (heap s)) s)) -> respects R alloc.
Proof using Type. intros Hf s o s' H. unfold alloc in H. by simplify_eq/=. Qed.

Lemma respects_bind {A B} (m : M A) (k : A -> M B) :
  respects R m -> (forall a, respects R (k a)) -> respects R (bind m k).
Proof using R_trans.
  intros Hm Hk s o s' H. unfold bind in H.
  destruct (m s) as [[a | e |] s1] eqn:Hms.
  - apply R_trans with s1; [by apply (Hm _ _ _ Hms) | by apply (Hk a _ _ _ H)].
  - simplify_eq/=. by apply (Hm _ _ _ Hms).
  - simplify_eq/=. by apply (Hm _ _ _ Hms).
Qed.
End Respects.

Lemma respects_exec (R : CreepyBird -> CreepyBird -> Prop) {A} (m : M A) (s : CreepyBird) :
  respects R m -> R s (exec m s).
Proof. intros Hm. unfold exec. destruct (m s) as [o s'] eqn:H. by apply (Hm _ _ _ H). Qed.

Lemma preserves_exec {T A} (f : CreepyBird -> T) (m : M A) (s : CreepyBird) :
  preserves f m -> f (exec m s) = f s.
Proof. apply (respects_exec (fun s s' => f s' = f s)). Qed.

(** Break a method down to its reads and writes.  The side conditions are
    that the relation is reflexive and transitive and holds across each
    write. *)
Create HintDb frames.

Ltac frame_side :=
  intros; unfold heap_le, lines_shape in *; simpl in *;
  solve [ reflexivity | lia | congruence | tauto | etransitivity; eassumption ].

Ltac frame_step :=
  first
    [ assumption
    | solve [auto with frames]
    | apply respects_ret; frame_side | apply respects_throw; frame_side
    | apply respects_hang; frame_side | apply respects_get; frame_side
    | apply respects_read; frame_side
    | apply respects_modify; frame_side
    | apply respects_alloc; frame_side
    | apply respects_bind; [frame_side | | intros ?]
    | progress (unfold emit, emits, active_delete, drop, set_display)
    | case_match ].

Ltac frame := repeat frame_step.

(** The scheduler, the cleanup and the resize leave the lifecycle alone. *)

Lemma shrink_lines_lifecycle (fuel : nat) (a : Lines) :
  preserves lifecycle (shrink_lines fuel a).
Proof. induction fuel as [| fuel IH]; simpl; frame. Qed.

Lemma grow_lines_lifecycle (fuel : nat) (a : Lines) :
  preserves lifecycle (grow_lines fuel a).
Proof. induction fuel as [| fuel IH]; simpl; unfold new_DanmakuLine; frame. Qed.

#[local] Hint Resolve shrink_lines_lifecycle grow_lines_lifecycle : frames.

Lemma updateDanmakuLines_lifecycle (h : Host) :
  preserves lifecycle (updateDanmakuLines h).
Proof. unfold updateDanmakuLines. frame. Qed.

Lemma loadDanmaku_body_lifecycle (h : Host) (t : Q) :
  preserves lifecycle (loadDanmaku_body h t).
Proof. unfold loadDanmaku_body, try_activate, new_DanmakuItem, activate. frame. Qed.

#[local] Hint Resolve updateDanmakuLines_lifecycle loadDanmaku_body_lifecycle : frames.

Lemma loadDanmaku_loop_lifecycle (fuel : nat) (h : Host) (t : Q) :
  preserves lifecycle (loadDanmaku_loop fuel h t).
Proof. induction fuel as [| fuel IH]; simpl; frame. Qed.

#[local] Hint Resolve loadDanmaku_loop_lifecycle : frames.

Lemma loadDanmaku_lifecycle (fuel : nat) (h : Host) (t : Q) :
  preserves lifecycle (loadDanmaku fuel h t).
Proof. unfold loadDanmaku. frame. Qed.

Lemma cleanup_queue_lifecycle (h : Host) (q : list DanmakuItem) :
  preserves lifecycle (cleanup_queue h q).
Proof. induction q as [| it q IH]; simpl; frame. Qed.

#[local] Hint Resolve loadDanmaku_lifecycle cleanup_queue_lifecycle : frames.

Lemma cleanup_line_lifecycle (h : Host) (l : DanmakuLine) :
  preserves lifecycle (cleanup_line h l).
Proof. unfold cleanup_line. frame. Qed.

Lemma forEach_line_lifecycle (f : DanmakuLine -> M DanmakuLine) (lines : list DanmakuLine) :
  (forall l, preserves lifecycle (f l)) -> preserves lifecycle (forEach_line f lines).
Proof. intros Hf. induction lines as [| l r IH]; simpl; frame. Qed.

#[local] Hint Resolve cleanup_line_lifecycle forEach_line_lifecycle : frames.

Lemma cleanupDanmaku_lifecycle (h : Host) :
  preserves lifecycle (cleanupDanmaku h).
Proof. unfold cleanupDanmaku. frame. Qed.

#[local] Hint Resolve cleanupDanmaku_lifecycle : frames.

Lemma tick_lifecycle (fuel : nat) (h : Host) :
  preserves lifecycle (tick fuel h).
Proof. unfold tick. frame. Qed.

#[local] Hint Resolve tick_lifecycle : frames.

(** ** Visibility across a detach *)

Lemma lifecycle_isVisible {A} (m : M A) :
  preserves lifecycle m -> preserves _isVisible m.
Proof.
  intros Hm s o s' H. specialize (Hm s o s' H).
  unfold lifecycle in Hm. by simplify_eq/=.
Qed.

Lemma detach_isVisible : preserves _isVisible detach.
Proof. unfold detach, _clearInterval. frame. Qed.

Lemma attachToVideo_isVisible (h : Host) (v : nat) :
  preserves _isVisible (attachToVideo h v).
Proof.
  pose proof detach_isVisible.
  pose proof (lifecycle_isVisible _ (updateDanmakuLines_lifecycle h)).
  unfold attachToVideo. frame.
Qed.

Lemma pause_isVisible (h : Host) : preserves _isVisible (pause h).
Proof. unfold pause, _clearInterval. frame. Qed.

Lemma resume_isVisible (h : Host) : preserves _isVisible (resume h).
Proof. unfold resume, _startInterval. frame. Qed.

Lemma load_begin_not_shown (s : CreepyBird) :
  shown_state (_state s) = false -> load_begin s = (Ok (_state s), s).
Proof. unfold load_begin. mstep. by intros ->. Qed.

Lemma load_then_isVisible (h : Host) (parse : Payload -> Outcome Parsed)
    (prev : CreepyBirdState.t) (format : string) (data : Payload) :
  shown_state prev = false ->
  preserves _isVisible (load_then h parse prev format data).
Proof.
  intros Hprev. unfold load_then, restore_state. rewrite Hprev.
  assert (forall tuples, preserves _isVisible (map_M new_Danmaku tuples)).
  { induction tuples as [| t r IH]; simpl; unfold new_Danmaku, _validateMode; frame. }
  frame.
Qed.

(** Every event that does not make [hide()] run from a state other than
    Empty keeps a visibility flag that is set. *)
Lemma isVisible_until_hide (h : Host) (parse : Payload -> Outcome Parsed)
    (e : Event) (s : CreepyBird) :
  _isVisible s = true -> runs_hide e s = false ->
  _isVisible (exec (handle h parse e) s) = true.
Proof.
  intros Hv Hh.
  pose proof detach_isVisible. pose proof attachToVideo_isVisible.
  pose proof pause_isVisible. pose proof resume_isVisible.
  assert (Hkeep : forall m : M unit, preserves _isVisible m -> _isVisible (exec m s) = true).
  { intros m Hm. by rewrite (preserves_exec _ m s Hm). }
  assert (Hlife : forall m : M unit, preserves lifecycle m -> _isVisible (exec m s) = true).
  { intros m Hm. by apply Hkeep, lifecycle_isVisible. }
  destruct e; simpl in Hh; cbn [handle].
  - apply Hkeep. frame.
  - apply Hkeep. frame.
  - (* load *)
    assert (Heq : drop (load h parse url format x) s =
                  drop (let* data := read (fun _ => _load url x) in
                        load_then h parse (_state s) format data) s).
    { unfold drop, load. unfold bind at 1 2.
      by rewrite (load_begin_not_shown s Hh). }
    unfold exec. rewrite Heq. apply Hkeep. unfold drop.
    pose proof (load_then_isVisible h parse (_state s) format) as Hthen.
    specialize (fun d => Hthen d Hh).
    apply respects_bind; [frame_side | | intros; apply respects_ret; frame_side].
    apply respects_bind; [frame_side | apply respects_read; frame_side | intros d; apply Hthen].
  - (* show *)
    clear -Hv. destruct s as [ov da vi iv ve sp fs ls lm li nx ac db hd st ro io hp dm].
    simpl in Hv. subst vi. unfold drop, show, pause, _startInterval, _clearInterval, set_display.
    destruct st, iv, ov, ve, (video_paused h); mstep; done.
  - (* hide, in Empty *)
    unfold drop, hide, exec, bind, get.
    destruct (CreepyBirdState.eqb (_state s) CreepyBirdState.Empty); [done | done].
  - apply Hkeep. frame.
  - apply Hkeep. frame.
  - apply Hkeep. unfold seek. frame.
  - apply Hkeep. unfold setFontSize. frame.
  - apply Hkeep. unfold setLineMargin. frame.
  - apply Hkeep. unfold setDebug. frame.
  - apply Hlife. frame.
  - apply Hlife. frame.
  - apply Hlife. frame.
  - apply Hlife. frame.
  - apply Hlife. unfold updatePosition. frame.
  - apply Hkeep. frame.
  - apply Hkeep. frame.
  - apply Hkeep. unfold seek. frame.
Qed.



(** ** The lines of a reachable engine *)

Lemma well_formed_shape (s s' : CreepyBird) :
  lines_shape s' = lines_shape s -> heap_le s s' -> well_formed s -> well_formed s'.
Proof.
  unfold lines_shape, heap_le, well_formed. intros [= Hl Hv] Hh (Hnd & Hlt & Hvid).
  split; [by rewrite Hl |]. split.
  - apply Forall_forall. intros l Hin.
    assert (Hin' : lid l ∈ map lid (_danmakuLines s)).
    { rewrite <- Hl. by apply list_elem_of_fmap_2. }
    apply list_elem_of_fmap in Hin' as (l0 & -> & Hl0).
    rewrite Forall_forall in Hlt. specialize (Hlt l0 Hl0). simpl in Hlt. lia.
  - intros Hne. rewrite Hv. apply Hvid. intros Hnil.
    rewrite Hnil in Hl. by destruct (_danmakuLines s').
Qed.

Lemma array_pop_Some {A} (l rest : list A) (x : A) :
  array_pop l = Some (rest, x) -> l = rest ++ [x].
Proof.
  unfold array_pop. destruct (reverse l) as [| y r] eqn:Hrev; [done |].
  intros [= <- <-]. rewrite <- (reverse_involutive l), Hrev.
  by rewrite reverse_cons.
Qed.

Lemma well_formed_pop (s : CreepyBird) (rest : list DanmakuLine) (line : DanmakuLine)
    (dm : list DomOp) :
  _danmakuLines s = rest ++ [line] -> well_formed s ->
  well_formed (set_dom dm (set_danmakuLines rest s)).
Proof.
  unfold well_formed. simpl. intros Hl (Hnd & Hlt & Hvid). rewrite Hl in *.
  rewrite map_app in Hnd. apply NoDup_app in Hnd as (Hnd & _ & _).
  apply Forall_app in Hlt as [Hlt _].
  split; [done |]. split; [done |]. intros _. apply Hvid. by destruct rest.
Qed.

Lemma shrink_lines_well_formed (fuel : nat) (a : Lines) (s s' : CreepyBird)
    (o : Outcome unit) :
  shrink_lines fuel a s = (o, s') -> well_formed s -> well_formed s'.
Proof.
  revert s. induction fuel as [| fuel IH]; intros s H Hwf; simpl in H.
  - mstep. case_match; by simplify_eq/=.
  - mstep. destruct (Lines_ltb a (length (_danmakuLines s))); [| by simplify_eq/=].
    destruct (array_pop (_danmakuLines s)) as [[rest line] |] eqn:Hpop;
      [| by simplify_eq/=].
    apply (IH _ H). apply (well_formed_pop s rest line); [| done].
    by apply array_pop_Some.
Qed.

Lemma well_formed_push (s : CreepyBird) :
  is_Some (_videoElement s) -> well_formed s ->
  well_formed (set_danmakuLines
                 (_danmakuLines s ++ [{| lid := heap s; queue := []; fixedItem := None |}])
                 (set_heap (S (heap s)) s)).
Proof.
  unfold well_formed. simpl. intros Hv (Hnd & Hlt & Hvid).
  split; [| split; [| done]].
  - rewrite map_app. apply NoDup_app. split; [done |]. split.
    + intros x Hx [= ->]%list_elem_of_singleton.
      apply list_elem_of_fmap in Hx as (l & Heq & Hl).
      rewrite Forall_forall in Hlt. specialize (Hlt l Hl). simpl in Hlt. lia.
    + simpl. apply NoDup_singleton.
  - apply Forall_app. split.
    + eapply Forall_impl; [exact Hlt |]. simpl. intros; lia.
    + apply Forall_singleton. simpl. lia.
Qed.

Lemma grow_lines_well_formed (fuel : nat) (a : Lines) (s s' : CreepyBird)
    (o : Outcome unit) :
  grow_lines fuel a s = (o, s') -> is_Some (_videoElement s) ->
  well_formed s -> well_formed s'.
Proof.
  revert s. induction fuel as [| fuel IH]; intros s H Hv Hwf; simpl in H.
  - mstep. case_match; by simplify_eq/=.
  - unfold new_DanmakuLine in H. mstep.
    destruct (Lines_gtb a (length (_danmakuLines s))); [| by simplify_eq/=].
    apply (IH _ H); [done |]. by apply well_formed_push.
Qed.

Lemma updateDanmakuLines_well_formed (h : Host) (s s' : CreepyBird) (o : Outcome unit) :
  updateDanmakuLines h s = (o, s') -> well_formed s -> well_formed s'.
Proof.
  unfold updateDanmakuLines. unfold bind at 1, get at 1. intros H Hwf.
  destruct (_videoElement s) as [v |] eqn:Hv; [| unfold throw in H; by simplify_eq/=].
  destruct (Lines_eqb _ _); [unfold ret in H; by simplify_eq/= |].
  destruct (Lines_ltb _ _).
  - by apply (shrink_lines_well_formed _ _ _ _ _ H).
  - apply (grow_lines_well_formed _ _ _ _ _ H); [by rewrite Hv | done].
Qed.

(** The allocator only moves forward. *)

Lemma map_M_new_Danmaku_heap (tuples : list Tuple) :
  respects heap_le (map_M new_Danmaku tuples).
Proof.
  induction tuples as [| t r IH]; simpl; unfold new_Danmaku, _validateMode; frame.
Qed.

Lemma shrink_lines_heap (fuel : nat) (a : Lines) : respects heap_le (shrink_lines fuel a).
Proof. induction fuel as [| fuel IH]; simpl; frame. Qed.

Lemma grow_lines_heap (fuel : nat) (a : Lines) : respects heap_le (grow_lines fuel a).
Proof. induction fuel as [| fuel IH]; simpl; unfold new_DanmakuLine; frame. Qed.

#[local] Hint Resolve map_M_new_Danmaku_heap shrink_lines_heap grow_lines_heap : frames.

Lemma updateDanmakuLines_heap (h : Host) : respects heap_le (updateDanmakuLines h).
Proof. unfold updateDanmakuLines. frame. Qed.

Lemma loadDanmaku_body_heap (h : Host) (t : Q) : respects heap_le (loadDanmaku_body h t).
Proof. unfold loadDanmaku_body, try_activate, new_DanmakuItem, activate. frame. Qed.

#[local] Hint Resolve updateDanmakuLines_heap loadDanmaku_body_heap : frames.

Lemma loadDanmaku_loop_heap (fuel : nat) (h : Host) (t : Q) :
  respects heap_le (loadDanmaku_loop fuel h t).
Proof. induction fuel as [| fuel IH]; simpl; frame. Qed.

Lemma cleanup_queue_heap (h : Host) (q : list DanmakuItem) :
  respects heap_le (cleanup_queue h q).
Proof. induction q as [| it q IH]; simpl; frame. Qed.

#[local] Hint Resolve loadDanmaku_loop_heap cleanup_queue_heap : frames.

Lemma cleanup_line_heap (h : Host) (l : DanmakuLine) : respects heap_le (cleanup_line h l).
Proof. unfold cleanup_line. frame. Qed.

#[local] Hint Resolve cleanup_line_heap : frames.

Lemma forEach_cleanup_heap (h : Host) (lines : list DanmakuLine) :
  respects heap_le (forEach_line (cleanup_line h) lines).
Proof. induction lines as [| l r IH]; simpl; frame. Qed.

#[local] Hint Resolve forEach_cleanup_heap : frames.

Lemma handle_heap (h : Host) (parse : Payload -> Outcome Parsed) (e : Event) :
  respects heap_le (handle h parse e).
Proof.
  destruct e; simpl;
    unfold attachToVideo, detach, load, load_begin, load_then, tick, loadDanmaku,
      cleanupDanmaku, updatePosition;
    unfold_lifecycle; frame.
Qed.

(** The scheduler and the cleanup keep the lines the objects they are. *)

Lemma map_lid_insert (lines : list DanmakuLine) (i : nat) (line line' : DanmakuLine) :
  lines !! i = Some line -> lid line' = lid line ->
  map lid (<[i := line']> lines) = map lid lines.
Proof.
  intros Hi Hlid. change (map lid) with (fmap (M := list) lid).
  rewrite list_fmap_insert, Hlid. apply list_insert_id.
  by rewrite list_lookup_fmap, Hi.
Qed.

Lemma activate_shape (h : Host) (it : DanmakuItem) (i : nat) :
  preserves lines_shape (activate h it i).
Proof.
  intros s o s' H. unfold activate in H. mstep.
  destruct (_videoElement s) eqn:Hv; [| by simplify_eq/=].
  destruct (_danmakuLines s !! i) as [line |] eqn:Hi; [| by simplify_eq/=].
  unfold lines_shape.
  destruct (mode (danmaku it)); simplify_eq/=;
    by rewrite (map_lid_insert _ _ line), ?Hv.
Qed.

#[local] Hint Resolve activate_shape : frames.

Lemma loadDanmaku_body_shape (h : Host) (t : Q) :
  preserves lines_shape (loadDanmaku_body h t).
Proof. unfold loadDanmaku_body, try_activate, new_DanmakuItem. frame. Qed.

#[local] Hint Resolve loadDanmaku_body_shape : frames.

Lemma loadDanmaku_loop_shape (fuel : nat) (h : Host) (t : Q) :
  preserves lines_shape (loadDanmaku_loop fuel h t).
Proof. induction fuel as [| fuel IH]; simpl; frame. Qed.

#[local] Hint Resolve loadDanmaku_loop_shape : frames.

Lemma loadDanmaku_shape (fuel : nat) (h : Host) (t : Q) :
  preserves lines_shape (loadDanmaku fuel h t).
Proof. unfold loadDanmaku. frame. Qed.

Lemma cleanup_queue_shape (h : Host) (q : list DanmakuItem) :
  preserves lines_shape (cleanup_queue h q).
Proof. induction q as [| it q IH]; simpl; frame. Qed.

#[local] Hint Resolve loadDanmaku_shape cleanup_queue_shape : frames.

Lemma cleanup_line_shape (h : Host) (l : DanmakuLine) :
  preserves lines_shape (cleanup_line h l).
Proof. unfold cleanup_line. frame. Qed.

#[local] Hint Resolve cleanup_line_shape : frames.

Lemma forEach_cleanup_shape (h : Host) (lines : list DanmakuLine) :
  preserves lines_shape (forEach_line (cleanup_line h) lines).
Proof. induction lines as [| l r IH]; simpl; frame. Qed.

(** The cleanup of a queue, of a line and of the lines always returns. *)
Lemma cleanup_queue_returns (h : Host) (q : list DanmakuItem) (s : CreepyBird) :
  exists q', outcome (cleanup_queue h q) s = Ok q'.
Proof.
  revert s. induction q as [| it q IH]; intros s; simpl; [by eexists |].
  unfold outcome in *.
  destruct (playState h (element it)) as [[] |]; try (by eexists); mstep; apply IH.
Qed.

Lemma cleanup_line_returns (h : Host) (l : DanmakuLine) (s : CreepyBird) :
  exists l', outcome (cleanup_line h l) s = Ok l' /\ lid l' = lid l.
Proof.
  unfold cleanup_line, outcome. unfold bind at 1.
  destruct (cleanup_queue_returns h (queue l) s) as [q' Hq]. unfold outcome in Hq.
  destruct (cleanup_queue h (queue l) s) as [o s1]. simpl in Hq. subst o.
  unfold line_removeFixed. simpl.
  destruct (fixedItem l) as [it |]; mstep; [| by eexists].
  destruct (Qle_bool _ _); by eexists.
Qed.

Lemma forEach_cleanup_returns (h : Host) (lines : list DanmakuLine) (s : CreepyBird) :
  exists lines', outcome (forEach_line (cleanup_line h) lines) s = Ok lines' /\
                 map lid lines' = map lid lines.
Proof.
  revert s. induction lines as [| l r IH]; intros s; simpl; [by eexists |].
  unfold outcome in *. unfold bind at 1.
  destruct (cleanup_line_returns h l s) as (l' & Hl & Hlid). unfold outcome in Hl.
  destruct (cleanup_line h l s) as [o s1]. simpl in Hl. subst o.
  unfold bind at 1. destruct (IH s1) as (r' & Hr & Hlids).
  destruct (forEach_line (cleanup_line h) r s1) as [o s2]. simpl in Hr. subst o.
  eexists. split; [reflexivity |]. simpl. by rewrite Hlid, Hlids.
Qed.

Lemma cleanupDanmaku_shape (h : Host) : preserves lines_shape (cleanupDanmaku h).
Proof.
  intros s o s' H. unfold cleanupDanmaku in H. unfold bind at 1, get at 1 in H.
  destruct (negb (_isVisible s)); [unfold ret in H; by simplify_eq/= |].
  destruct (_videoElement s) as [v |] eqn:Hv; [| unfold ret in H; by simplify_eq/=].
  unfold bind at 1 in H.
  destruct (forEach_cleanup_returns h (_danmakuLines s) s) as (lines' & Ho & Hlids).
  unfold outcome in Ho.
  destruct (forEach_line (cleanup_line h) (_danmakuLines s) s) as [o1 s1] eqn:Hfor.
  simpl in Ho. subst o1. unfold modify in H. simplify_eq/=.
  pose proof (forEach_cleanup_shape h _ _ _ _ Hfor) as Hshape.
  unfold lines_shape in *. simpl. simplify_eq/=. by rewrite Hlids, H0.
Qed.

#[local] Hint Resolve cleanupDanmaku_shape : frames.

(** Every reaction keeps the lines distinct objects of a video. *)
Lemma well_formed_respects {A} (m : M A) :
  preserves lines_shape m -> respects heap_le m ->
  respects (fun s s' => well_formed s -> well_formed s') m.
Proof.
  intros Hs Hh s o s' H. apply well_formed_shape; [by apply (Hs _ _ _ H) | by apply (Hh _ _ _ H)].
Qed.

Lemma detach_well_formed : respects (fun s s' => well_formed s -> well_formed s') detach.
Proof.
  intros s o s' H Hwf.
  assert (Hnil : forall s0, _danmakuLines s0 = [] -> well_formed s0).
  { intros s0 Hl. unfold well_formed. rewrite Hl. split; [constructor |]. by split. }
  revert H. unfold detach, _clearInterval. mstep.
  destruct (_intervalId s); simpl;
    (destruct (_videoElement s) eqn:Hv; simpl);
    try (destruct (overlayElement s); simpl);
    intros H; simplify_eq/=; try (by apply Hnil);
    by (eapply well_formed_shape; [| | exact Hwf];
        [unfold lines_shape; simpl; by rewrite ?Hv | unfold heap_le; simpl; lia]).
Qed.

Lemma attachToVideo_well_formed (h : Host) (v : nat) :
  respects (fun s s' => well_formed s -> well_formed s') (attachToVideo h v).
Proof.
  assert (Hset : forall (g : CreepyBird -> CreepyBird),
    (forall s, _danmakuLines (g s) = _danmakuLines s /\ (heap s <= heap (g s))%nat /\
               (is_Some (_videoElement s) -> is_Some (_videoElement (g s)))) ->
    forall s, well_formed s -> well_formed (g s)).
  { intros g Hg s (Hnd & Hlt & Hvid). destruct (Hg s) as (Hl & Hh & Hv).
    unfold well_formed. rewrite Hl. split; [done |]. split; [| by auto].
    eapply Forall_impl; [exact Hlt |]. simpl. intros; lia. }
  pose proof detach_well_formed.
  assert (respects (fun s s' => well_formed s -> well_formed s') (updateDanmakuLines h)).
  { intros s o s' H0. by apply (updateDanmakuLines_well_formed h s s' o). }
  unfold attachToVideo.
  repeat first
    [ assumption
    | apply respects_ret; tauto | apply respects_get; tauto
    | apply respects_bind; [tauto | | intros ?]
    | apply respects_modify; apply Hset; intros; simpl; by eauto
    | apply respects_alloc; apply Hset; intros; simpl; by eauto
    | progress (unfold emit)
    | case_match ].
Qed.

Lemma handle_well_formed (h : Host) (parse : Payload -> Outcome Parsed) (e : Event)
    (s : CreepyBird) :
  well_formed s -> well_formed (exec (handle h parse e) s).
Proof.
  apply (respects_exec (fun s s' => well_formed s -> well_formed s')).
  pose proof (attachToVideo_well_formed h) as Hattach.
  pose proof detach_well_formed as Hdetach.
  assert (Hupdate : respects (fun s s' => well_formed s -> well_formed s')
                      (updateDanmakuLines h)).
  { intros s0 o s' H0. by apply (updateDanmakuLines_well_formed h s0 s' o). }
  assert (Hshape : preserves lines_shape (handle h parse e) ->
                   respects (fun s s' => well_formed s -> well_formed s') (handle h parse e)).
  { intros Hs. apply well_formed_respects; [done | apply handle_heap]. }
  assert (Hmap : forall tuples, preserves lines_shape (map_M new_Danmaku tuples)).
  { induction tuples as [| t r IH]; simpl; unfold new_Danmaku, _validateMode; frame. }
  destruct e; simpl in *;
    try (apply Hshape;
         unfold load, load_begin, load_then, tick, updatePosition; unfold_lifecycle;
         by frame).
  - unfold drop. apply respects_bind; [tauto | done | intros; apply respects_ret; tauto].
  - unfold drop. apply respects_bind; [tauto | done | intros; apply respects_ret; tauto].
  - done.
  - unfold updatePosition.
    apply respects_bind; [tauto | apply respects_get; tauto | intros s0].
    case_match; [done | apply respects_ret; tauto].
Qed.

Lemma reachable_well_formed (parse : Payload -> Outcome Parsed) (s : CreepyBird) :
  reachable parse s -> well_formed s.
Proof.
  induction 1 as [| h e s Hr IH].
  - unfold well_formed. simpl. split; [constructor |]. by split.
  - by apply handle_well_formed.
Qed.

(** ** The resize returns *)

Lemma array_pop_length {A} (l rest : list A) (x : A) :
  array_pop l = Some (rest, x) -> length l = S (length rest).
Proof.
  intros H. apply array_pop_Some in H as ->. rewrite length_app. simpl. lia.
Qed.

Lemma shrink_lines_returns (fuel : nat) (a : Lines) (s : CreepyBird) :
  (length (_danmakuLines s) < fuel)%nat ->
  outcome (shrink_lines fuel a) s <> Hang.
Proof.
  revert s. induction fuel as [| fuel IH]; intros s Hlt; [lia |].
  unfold outcome in *. simpl. mstep.
  destruct (Lines_ltb a (length (_danmakuLines s))); [| done].
  destruct (array_pop (_danmakuLines s)) as [[rest line] |] eqn:Hpop; [| done].
  apply IH. simpl. apply array_pop_length in Hpop. lia.
Qed.

Lemma grow_lines_returns (fuel : nat) (n : Z) (s : CreepyBird) :
  n <= Z.of_nat (length (_danmakuLines s)) + Z.of_nat fuel ->
  outcome (grow_lines fuel (Finite n)) s <> Hang.
Proof.
  revert s. induction fuel as [| fuel IH]; intros s Hle; unfold outcome in *; simpl.
  - mstep. destruct (Z.ltb_spec (Z.of_nat (length (_danmakuLines s))) n); [lia | done].
  - unfold new_DanmakuLine. mstep.
    destruct (Z.of_nat (length (_danmakuLines s)) <? n); [| done].
    apply IH. simpl. rewrite length_app. simpl. lia.
Qed.

(** The fuel [updateDanmakuLines] gives its loops is enough: it hangs only
    on an infinite line count, and then it does. *)
Lemma updateDanmakuLines_returns (h : Host) (s : CreepyBird) :
  calAvailableLines h s <> PlusInfinity ->
  outcome (updateDanmakuLines h) s <> Hang.
Proof.
  intros Hfin. unfold outcome, updateDanmakuLines. unfold bind at 1, get at 1.
  destruct (_videoElement s); [| done].
  destruct (Lines_eqb _ _); [done |].
  destruct (Lines_ltb _ _).
  - apply shrink_lines_returns. lia.
  - destruct (calAvailableLines h s) as [lines | | |]; [| done | done ..].
    apply grow_lines_returns. lia.
Qed.

Lemma updateDanmakuLines_Infinity (h : Host) (s : CreepyBird) :
  calAvailableLines h s = PlusInfinity -> is_Some (_videoElement s) ->
  outcome (updateDanmakuLines h) s = Hang.
Proof.
  intros Hinf [v Hv]. unfold outcome, updateDanmakuLines. unfold bind at 1, get at 1.
  by rewrite Hv, Hinf.
Qed.

(** ** Picking a line *)

Lemma has_room_leaves_room (h : Host) (s : CreepyBird) (l : DanmakuLine) :
  has_room h s l = true <-> leaves_room h s l.
Proof.
  unfold has_room, leaves_room. destruct (last (queue l)) as [it |] eqn:Hlast.
  - rewrite Qle_bool_iff. split.
    + intros Hle. right. by exists it.
    + intros [Hnil | (it' & [= <-] & Hle)]; [| done].
      rewrite Hnil in Hlast. done.
  - apply last_None in Hlast. split; [by left | done].
Qed.

Lemma scan_lines_spec (h : Host) (s : CreepyBird) (lines : list DanmakuLine) (k : nat) :
  match scan_lines h s lines k with
  | Some i =>
      exists j l, i = (k + j)%nat /\ lines !! j = Some l /\ leaves_room h s l /\
        forall j' l', (j' < j)%nat -> lines !! j' = Some l' -> ~ leaves_room h s l'
  | None => forall l, l ∈ lines -> ~ leaves_room h s l
  end.
Proof.
  revert k. induction lines as [| l r IH]; intros k; simpl.
  - intros l Hl. by apply elem_of_nil in Hl.
  - destruct (has_room h s l) eqn:Hroom.
    + exists 0%nat, l. split; [lia |]. split; [done |].
      split; [by apply has_room_leaves_room |]. intros; lia.
    + assert (Hno : ~ leaves_room h s l).
      { intros Hc. apply has_room_leaves_room in Hc. congruence. }
      specialize (IH (S k)). destruct (scan_lines h s r (S k)) as [i |].
      * destruct IH as (j & l' & -> & Hj & Hl' & Hbefore).
        exists (S j), l'. split; [lia |]. split; [done |]. split; [done |].
        intros [| j'] l'' Hlt Hl''; simpl in Hl''; [by simplify_eq/= |].
        apply (Hbefore j'); [lia | done].
      * intros l' [-> | Hin]%elem_of_cons; [done | by apply IH].
Qed.

Lemma first_without_fixed_spec (lines : list DanmakuLine) :
  match first_without_fixed lines with
  | Some l =>
      exists i, lines !! i = Some l /\ fixedItem l = None /\
        forall j l', (j < i)%nat -> lines !! j = Some l' -> fixedItem l' <> None
  | None => forall l, l ∈ lines -> fixedItem l <> None
  end.
Proof.
  unfold first_without_fixed. induction lines as [| l r IH]; simpl.
  - intros l Hl. by apply elem_of_nil in Hl.
  - unfold hasFixed at 1. destruct (fixedItem l) as [it |] eqn:Hfix; simpl.
    + destruct (find _ r) as [l0 |].
      * destruct IH as (i & Hi & Hnone & Hbefore).
        exists (S i). split; [done |]. split; [done |].
        intros [| j] l' Hlt Hl'; simpl in Hl'; [simplify_eq/=; congruence |].
        apply (Hbefore j); [lia | done].
      * intros l' [-> | Hin]%elem_of_cons; [congruence | by apply IH].
    + exists 0%nat. split; [done |]. split; [done |]. intros; lia.
Qed.

(** [indexOf] finds a line where it is, when no two lines are one object. *)
Lemma indexOf_lookup (lines : list DanmakuLine) (i : nat) (l : DanmakuLine) :
  NoDup (map lid lines) -> lines !! i = Some l -> indexOf lines l = Some i.
Proof.
  revert i. induction lines as [| l0 r IH]; intros i Hnd Hi; [done |].
  simpl in Hnd. apply NoDup_cons in Hnd as [Hnotin Hnd]. simpl.
  destruct i as [| i]; simpl in Hi.
  - simplify_eq/=. by rewrite Nat.eqb_refl.
  - destruct (Nat.eqb_spec (lid l0) (lid l)) as [Heq | Hne].
    + exfalso. apply Hnotin. rewrite Heq.
      apply list_elem_of_fmap. exists l. split; [done |].
      apply list_elem_of_lookup. eauto.
    + by rewrite (IH i Hnd Hi).
Qed.

(** What [pickLine] answers when the lines are distinct objects and have a
    video: it returns, with a position that suits the mode, or with [null]
    when no line does. *)
Lemma pickLine_valid (h : Host) (s : CreepyBird) (danmakuItem : DanmakuItem) :
  NoDup (map lid (_danmakuLines s)) ->
  (_danmakuLines s <> [] -> is_Some (_videoElement s)) ->
  exists r, pickLine h s danmakuItem = Ok r /\
            picked h s (mode (danmaku danmakuItem)) r.
Proof.
  intros Hnd Hv. unfold pickLine, picked.
  destruct (Nat.eqb_spec (length (_danmakuLines s)) 0) as [Hlen | Hlen].
  { apply nil_length_inv in Hlen. rewrite Hlen. exists None. split; [done |].
    destruct (mode (danmaku danmakuItem)); intros l Hl; by apply elem_of_nil in Hl. }
  destruct Hv as [ve Hve]; [by intros Hnil; rewrite Hnil in Hlen |]. rewrite Hve.
  destruct (mode (danmaku danmakuItem)).
  - (* Float *)
    eexists. split; [done |].
    pose proof (scan_lines_spec h s (_danmakuLines s) 0) as Hscan.
    destruct (scan_lines h s (_danmakuLines s) 0) as [i |]; [| done].
    destruct Hscan as (j & l & -> & Hj & Hroom & Hbefore). simpl.
    split; [by exists l | done].
  - (* Bottom *)
    pose proof (first_without_fixed_spec (reverse (_danmakuLines s))) as Hfirst.
    destruct (first_without_fixed (reverse (_danmakuLines s))) as [l |].
    + destruct Hfirst as (i & Hi & Hnone & Hbefore).
      apply reverse_lookup_Some in Hi as [Hi Hlt].
      rewrite (indexOf_lookup _ _ _ Hnd Hi). eexists. split; [done |].
      split; [by exists l |]. intros j l' Hj Hl'.
      pose proof (lookup_lt_Some _ _ _ Hl') as Hjlt.
      apply (Hbefore (length (_danmakuLines s) - S j)%nat); [lia |].
      apply reverse_lookup_Some. split; [| lia].
      by replace (length (_danmakuLines s) - S (length (_danmakuLines s) - S j))%nat
        with j by lia.
    + exists None. split; [done |]. intros l Hl. apply Hfirst.
      by apply elem_of_reverse.
  - (* Top *)
    pose proof (first_without_fixed_spec (_danmakuLines s)) as Hfirst.
    destruct (first_without_fixed (_danmakuLines s)) as [l |].
    + destruct Hfirst as (i & Hi & Hnone & Hbefore).
      rewrite (indexOf_lookup _ _ _ Hnd Hi). eexists. split; [done |].
      split; [by exists l | done].
    + exists None. split; [done |]. done.
Qed.



(** ** One round of the scheduler *)

Lemma try_activate_cursor (h : Host) (d : Danmaku) :
  preserves _nextDanmakuIndex (try_activate h d).
Proof. unfold try_activate, new_DanmakuItem, activate. frame. Qed.

Lemma try_activate_continues (h : Host) (d : Danmaku) (s s' : CreepyBird) (o : Outcome LoopCtl) :
  try_activate h d s = (o, s') -> o <> Ok Break.
Proof.
  unfold try_activate. unfold bind at 1. intros H.
  destruct (new_DanmakuItem d s) as [[it | e |] s1]; [| by simplify_eq/= ..].
  unfold bind at 1, read at 1 in H.
  destruct (pickLine h s1 it) as [[i |] | e |]; [| | by simplify_eq/= ..].
  - unfold bind in H. destruct (activate h it i s1) as [[[] | e |] s2];
      unfold ret in H; by simplify_eq/=.
  - unfold bind, emit, modify, ret in H. by simplify_eq/=.
Qed.

(** A candidate that is active already is stepped over. *)
Lemma loadDanmaku_body_active (h : Host) (t : Q) (s : CreepyBird)
    (data : list Danmaku) (index : nat) (d : Danmaku) :
  _data s = Some data -> next_candidate s data t = Some index -> data !! index = Some d ->
  (oid d ∈ _activeDanmaku s) ->
  loadDanmaku_body h t s = (Ok Continue, set_nextDanmakuIndex (Some (index + 1)%nat) s).
Proof.
  intros Hdata Hc Hd Ha. unfold loadDanmaku_body, bind at 1, get.
  rewrite Hdata, Hc, Hd. by destruct (decide (oid d ∈ _activeDanmaku s)).
Qed.

(** A candidate that is not active and too far from the clock ends the loop
    and nothing is written. *)
Lemma loadDanmaku_body_far (h : Host) (t : Q) (s : CreepyBird)
    (data : list Danmaku) (index : nat) (d : Danmaku) :
  _data s = Some data -> next_candidate s data t = Some index -> data !! index = Some d ->
  (oid d ∉ _activeDanmaku s) -> (1 # 10 < Qabs (time d - t))%Q ->
  loadDanmaku_body h t s = (Ok Break, s).
Proof.
  intros Hdata Hc Hd Ha Hfar. unfold loadDanmaku_body, bind at 1, get.
  rewrite Hdata, Hc, Hd. destruct (decide (oid d ∈ _activeDanmaku s)); [done |].
  destruct (Qlt_le_dec (1 # 10) (Qabs (time d - t))) as [_ | Hle]; [done |].
  exfalso. by apply (Qlt_not_le _ _ Hfar).
Qed.

(** A candidate that is not active and due: the next index is stored, then
    the activation is tried. *)
Lemma loadDanmaku_body_due (h : Host) (t : Q) (s : CreepyBird)
    (data : list Danmaku) (index : nat) (d : Danmaku) :
  _data s = Some data -> next_candidate s data t = Some index -> data !! index = Some d ->
  (oid d ∉ _activeDanmaku s) -> (Qabs (time d - t) <= 1 # 10)%Q ->
  loadDanmaku_body h t s =
  try_activate h d (set_nextDanmakuIndex (Some (index + 1)%nat) s).
Proof.
  intros Hdata Hc Hd Ha Hdue. unfold loadDanmaku_body, bind at 1, get.
  rewrite Hdata, Hc, Hd. destruct (decide (oid d ∈ _activeDanmaku s)); [done |].
  destruct (Qlt_le_dec (1 # 10) (Qabs (time d - t))) as [Hfar | _]; [| done].
  exfalso. by apply (Qlt_not_le _ _ Hfar).
Qed.

(** Without a candidate the loop ends and nothing is written. *)
Lemma loadDanmaku_body_none (h : Host) (t : Q) (s : CreepyBird) (data : list Danmaku) :
  _data s = Some data -> next_candidate s data t = None ->
  loadDanmaku_body h t s = (Ok Break, s).
Proof.
  intros Hdata Hc. unfold loadDanmaku_body, bind at 1, get. by rewrite Hdata, Hc.
Qed.



(** ** A danmaku that found no line *)

(** [pickLine] reads the lines, the video and the line margin only. *)
Lemma pickLine_ext (h : Host) (s s' : CreepyBird) (it : DanmakuItem) :
  _danmakuLines s' = _danmakuLines s ->
  _videoElement s' = _videoElement s ->
  _lineMargin s' = _lineMargin s ->
  pickLine h s' it = pickLine h s it.
Proof.
  intros Hl Hv Hm. unfold pickLine. rewrite Hl, Hv.
  assert (Hscan : forall lines k, scan_lines h s' lines k = scan_lines h s lines k).
  { induction lines as [| l r IH]; intros k; [done |].
    simpl. unfold has_room. rewrite Hm. by rewrite IH. }
  by rewrite Hscan.
Qed.

(** When no line is free for a due danmaku, the round goes on with the next
    index stored, the danmaku not active, the lines as they were, and the
    item taken off the surface again. *)
Lemma try_activate_no_line (h : Host) (d : Danmaku) (s : CreepyBird) (overlay : nat) :
  overlayElement s = Some overlay ->
  pickLine h s {| danmaku := d; element := heap s |} = Ok None ->
  exists s', try_activate h d s = (Ok Continue, s') /\
    _nextDanmakuIndex s' = _nextDanmakuIndex s /\
    _activeDanmaku s' = _activeDanmaku s /\
    _danmakuLines s' = _danmakuLines s /\
    dom s' = RemoveItem (heap s) :: CreateItem (heap s) (oid d) :: dom s.
Proof.
  intros Hov Hpick. unfold try_activate, new_DanmakuItem. mstep. rewrite Hov. mstep.
  rewrite (pickLine_ext h s) by done.
  rewrite Hpick. eexists. split; [reflexivity |]. done.
Qed.

(** After a drop at [index] the next candidate is [index + 1], as long as
    that is inside the collection. *)
Lemma next_candidate_cached (s : CreepyBird) (data : list Danmaku) (t : Q) (c : nat) :
  _nextDanmakuIndex s = Some c -> (c < length data)%nat ->
  next_candidate s data t = Some c.
Proof.
  intros Hc Hlt. unfold next_candidate. rewrite Hc.
  by destruct (Nat.ltb_spec c (length data)); [| lia].
Qed.

(** While the next index is 2, past the end of the two comments, the search
    starts over at the first, which is active: the next index becomes 1. *)
Lemma crowded_round_restart (hp : nat) (dm : list DomOp) :
  loadDanmaku_body (narrow_host 1) 1 (crowded_at 2 hp dm) =
  (Ok Continue, crowded_at 1 hp dm).
Proof. vm_compute. reflexivity. Qed.

(** While the next index is 1, the second comment is due, gets an item, finds
    the line taken, and loses the item: the next index becomes 2. *)
Lemma crowded_round_drop (hp : nat) (dm : list DomOp) :
  loadDanmaku_body (narrow_host 1) 1 (crowded_at 1 hp dm) =
  (Ok Continue, crowded_at 2 (S hp) (RemoveItem hp :: CreateItem hp 4 :: dm)).
Proof. vm_compute. reflexivity. Qed.

Lemma crowded_loop_hangs (fuel : nat) :
  forall (c hp : nat) (dm : list DomOp),
    c = 1%nat \/ c = 2%nat ->
    outcome (loadDanmaku_loop fuel (narrow_host 1) 1) (crowded_at c hp dm) = Hang.
Proof.
  induction fuel as [| fuel IH]; intros c hp dm Hc; [done |].
  unfold outcome in *. cbn [loadDanmaku_loop]. unfold bind at 1.
  destruct Hc as [-> | ->].
  - rewrite crowded_round_drop. apply IH. by right.
  - rewrite crowded_round_restart. apply IH. by left.
Qed.

Lemma crowded_round_first :
  loadDanmaku_body (narrow_host 1) 1 crowded =
  (Ok Continue, round (narrow_host 1) 1 crowded).
Proof. vm_compute. reflexivity. Qed.

Lemma crowded_round_second :
  loadDanmaku_body (narrow_host 1) 1 (round (narrow_host 1) 1 crowded) =
  (Ok Continue, crowded_at 2 (heap crowded2) (dom crowded2)).
Proof. vm_compute. reflexivity. Qed.

Lemma crowded_loadDanmaku (fuel : nat) :
  loadDanmaku fuel (narrow_host 1) 1 crowded =
  loadDanmaku_loop fuel (narrow_host 1) 1 crowded.
Proof.
  unfold loadDanmaku, bind, get.
  replace (_data crowded) with (Some (collection crowded)) by (vm_compute; reflexivity).
  replace (_isVisible crowded) with true by (vm_compute; reflexivity).
  done.
Qed.

(** C4 on the code.  In the tick at second 1 of [crowded], the second round
    drops the second comment (index 1): no line has room, the next index
    becomes 2, the comment is neither active nor on a line.  The next index
    is then outside the collection, so the third round searches again and
    steps over the first comment, and the fourth round has the dropped
    comment as its candidate again, and drops it again.  The loop never
    ends. *)
Theorem dropped_danmaku_is_retried :
  let h := narrow_host 1 in
  let s1 := round h 1 crowded in
  let s2 := round h 1 s1 in
  let s3 := round h 1 s2 in
  let s4 := round h 1 s3 in
  (next_candidate s1 (collection s1) 1 = Some 1%nat /\
   pickLine h s1 {| danmaku := danmaku_at s1 1; element := heap s1 |} = Ok None /\
   loadDanmaku_body h 1 s1 = (Ok Continue, s2) /\
   _nextDanmakuIndex s2 = Some 2%nat /\
   (oid (danmaku_at s1 1) ∉ _activeDanmaku s2) /\
   (oid (danmaku_at s1 1) ∉ visible (_danmakuLines s2))) /\
  (next_candidate s2 (collection s2) 1 = Some 0%nat /\
   next_candidate s3 (collection s3) 1 = Some 1%nat /\
   loadDanmaku_body h 1 s3 = (Ok Continue, s4) /\
   dom s4 = RemoveItem (heap s3) :: CreateItem (heap s3) (oid (danmaku_at s1 1)) :: dom s3) /\
  forall fuel, outcome (loadDanmaku fuel h 1) crowded = Hang.
Proof.
  split; [| split].
  - split; [| split; [| split; [| split; [| split]]]]; try (vm_compute; reflexivity).
    + refine (bool_decide_unpack _ _). vm_compute. reflexivity.
    + refine (bool_decide_unpack _ _). vm_compute. reflexivity.
  - split; [| split; [| split]]; vm_compute; reflexivity.
  - intros fuel. unfold outcome. rewrite crowded_loadDanmaku.
    destruct fuel as [| [| fuel]]; [done | |].
    + cbn [loadDanmaku_loop]. unfold bind at 1. by rewrite crowded_round_first.
    + cbn [loadDanmaku_loop]. unfold bind at 1. rewrite crowded_round_first.
      cbv iota beta. unfold bind at 1. rewrite crowded_round_second.
      cbv iota beta.
      apply (crowded_loop_hangs fuel 2 (heap crowded2) (dom crowded2)). by right.
Qed.

(** ** The registry on the other paths *)

Lemma visible_cons (l : DanmakuLine) (r : list DanmakuLine) :
  visible (l :: r) = oids (line_items l) ++ visible r.
Proof. unfold visible, oids. simpl. by rewrite map_app. Qed.

Lemma visible_app (l1 l2 : list DanmakuLine) :
  visible (l1 ++ l2) = visible l1 ++ visible l2.
Proof.
  induction l1 as [| l r IH]; [done |].
  simpl. by rewrite !visible_cons, IH, app_assoc.
Qed.

Lemma visible_insert (lines : list DanmakuLine) (i : nat) (line line' : DanmakuLine)
    (x : nat) :
  lines !! i = Some line ->
  oids (line_items line') ≡ₚ x :: oids (line_items line) ->
  visible (<[i := line']> lines) ≡ₚ x :: visible lines.
Proof.
  revert i. induction lines as [| l r IH]; intros i Hi Hp; [done |].
  destruct i as [| i]; simpl in *.
  - simplify_eq/=. by rewrite !visible_cons, Hp.
  - rewrite !visible_cons, (IH i Hi Hp). by rewrite Permutation_middle.
Qed.

Lemma registry_exact_ext (s s' : CreepyBird) :
  lines_registry s' = lines_registry s -> registry_exact s -> registry_exact s'.
Proof.
  unfold lines_registry, registry_exact, registry_matches. intros [= Hl Ha].
  by rewrite Hl, Ha.
Qed.

(** Putting an item for a danmaku that is not active on a line, in the queue
    or as the fixed item of a line that has none, and adding the danmaku to
    the registry. *)
Lemma registry_exact_add (s : CreepyBird) (i : nat) (line line' : DanmakuLine)
    (it : DanmakuItem) (dm : list DomOp) :
  _danmakuLines s !! i = Some line ->
  oids (line_items line') ≡ₚ oid (danmaku it) :: oids (line_items line) ->
  (oid (danmaku it) ∉ _activeDanmaku s) ->
  registry_exact s ->
  registry_exact
    (set_danmakuLines (<[i := line']> (_danmakuLines s))
       (set_dom dm (set_activeDanmaku ({[oid (danmaku it)]} ∪ _activeDanmaku s) s))).
Proof.
  intros Hi Hp Hnew [Hm Hnd]. unfold registry_exact, registry_matches in *. simpl.
  pose proof (visible_insert _ _ _ _ _ Hi Hp) as Hv.
  split.
  - intros o. rewrite Hv, elem_of_union, elem_of_singleton, elem_of_cons.
    by rewrite Hm.
  - rewrite Hv. apply NoDup_cons. split; [| done]. by rewrite <- Hm.
Qed.

Lemma activate_registry (h : Host) (it : DanmakuItem) (i : nat) (line : DanmakuLine)
    (s s' : CreepyBird) (o : Outcome unit) :
  activate h it i s = (o, s') ->
  _danmakuLines s !! i = Some line ->
  (mode (danmaku it) <> DanmakuType.Float -> fixedItem line = None) ->
  is_Some (_videoElement s) ->
  (oid (danmaku it) ∉ _activeDanmaku s) ->
  registry_exact s -> registry_exact s'.
Proof.
  intros H Hi Hfix [v Hv] Hnew Hreg. revert H. unfold activate. mstep.
  rewrite Hv, Hi.
  destruct (mode (danmaku it)) eqn:Hmode; intros H; simplify_eq/=.
  - apply (registry_exact_add s i line); try done.
    unfold line_items, line_push, oids. simpl.
    rewrite !map_app. simpl. rewrite <- app_assoc. simpl.
    by rewrite <- Permutation_middle.
  - rewrite (Hfix ltac:(done)). simpl.
    apply (registry_exact_add s i line); try done.
    unfold line_items, oids. simpl. rewrite (Hfix ltac:(done)).
    rewrite !map_app. simpl. by rewrite app_nil_r, <- Permutation_cons_append.
  - rewrite (Hfix ltac:(done)). simpl.
    apply (registry_exact_add s i line); try done.
    unfold line_items, oids. simpl. rewrite (Hfix ltac:(done)).
    rewrite !map_app. simpl. by rewrite app_nil_r, <- Permutation_cons_append.
Qed.

Lemma try_activate_registry (h : Host) (d : Danmaku) (s s' : CreepyBird)
    (o : Outcome LoopCtl) :
  try_activate h d s = (o, s') ->
  well_formed s -> (oid d ∉ _activeDanmaku s) ->
  registry_exact s -> registry_exact s'.
Proof.
  intros H (Hnd & _ & Hvid) Hnew Hreg. revert H.
  unfold try_activate, new_DanmakuItem. mstep.
  destruct (overlayElement s) as [ov |]; simpl; [| by intros; simplify_eq/=].
  set (it := {| danmaku := d; element := heap s |}).
  set (s2 := set_dom (CreateItem (heap s) (oid d) :: dom s) (set_heap (S (heap s)) s)).
  rewrite (pickLine_ext h s s2 it) by done.
  destruct (pickLine_valid h s it Hnd Hvid) as (r & -> & Hpicked).
  destruct r as [i |].
  - destruct (activate h it i s2) as [o1 s3] eqn:Hact.
    assert (Hi : exists line, _danmakuLines s !! i = Some line /\
                   (mode d <> DanmakuType.Float -> fixedItem line = None)).
    { unfold picked in Hpicked. simpl in Hpicked.
      destruct (mode d); destruct Hpicked as [(l & Hl & Hok) _]; by exists l. }
    destruct Hi as (line & Hi & Hfix).
    assert (Hreg3 : registry_exact s3).
    { apply (activate_registry h it i line s2 s3 o1 Hact); try done.
      simpl. apply Hvid. intros Hnil. by rewrite Hnil in Hi. }
    destruct o1; intros; by simplify_eq/=.
  - intros. simplify_eq/=. by apply (registry_exact_ext s).
Qed.

Lemma loadDanmaku_body_registry (h : Host) (t : Q) (s s' : CreepyBird)
    (o : Outcome LoopCtl) :
  loadDanmaku_body h t s = (o, s') ->
  well_formed s -> registry_exact s -> registry_exact s'.
Proof.
  intros H Hwf Hreg. revert H. unfold loadDanmaku_body. mstep.
  destruct (_data s) as [data |]; [| by intros; simplify_eq/=].
  destruct (next_candidate s data t) as [index |]; [| by intros; simplify_eq/=].
  destruct (data !! index) as [d |]; [| by intros; simplify_eq/=].
  destruct (decide (oid d ∈ _activeDanmaku s)) as [Ha | Ha].
  { intros. simplify_eq/=. by apply (registry_exact_ext s). }
  destruct (Qlt_le_dec _ _); [by intros; simplify_eq/= |].
  intros H.
  by apply (try_activate_registry h d _ _ _ H).
Qed.

Lemma loadDanmaku_body_well_formed (h : Host) (t : Q) (s s' : CreepyBird)
    (o : Outcome LoopCtl) :
  loadDanmaku_body h t s = (o, s') -> well_formed s -> well_formed s'.
Proof.
  intros H. apply well_formed_shape.
  - by apply (loadDanmaku_body_shape h t _ _ _ H).
  - by apply (loadDanmaku_body_heap h t _ _ _ H).
Qed.

Lemma loadDanmaku_loop_registry (fuel : nat) (h : Host) (t : Q) (s s' : CreepyBird)
    (o : Outcome unit) :
  loadDanmaku_loop fuel h t s = (o, s') ->
  well_formed s -> registry_exact s -> registry_exact s'.
Proof.
  revert s. induction fuel as [| fuel IH]; intros s H Hwf Hreg; simpl in H.
  - unfold hang in H. by simplify_eq/=.
  - unfold bind at 1 in H.
    destruct (loadDanmaku_body h t s) as [o1 s1] eqn:Hbody.
    pose proof (loadDanmaku_body_registry h t _ _ _ Hbody Hwf Hreg) as Hreg1.
    pose proof (loadDanmaku_body_well_formed h t _ _ _ Hbody Hwf) as Hwf1.
    destruct o1 as [[] | e |]; try (unfold ret in H; by simplify_eq/=);
      try (by simplify_eq/=).
    by apply (IH s1).
Qed.

Lemma loadDanmaku_registry (fuel : nat) (h : Host) (t : Q) (s s' : CreepyBird)
    (o : Outcome unit) :
  loadDanmaku fuel h t s = (o, s') ->
  well_formed s -> registry_exact s -> registry_exact s'.
Proof.
  unfold loadDanmaku. unfold bind at 1, get at 1. intros H Hwf Hreg.
  destruct (_data s); [| unfold ret in H; by simplify_eq/=].
  destruct (negb (_isVisible s)); [unfold ret in H; by simplify_eq/= |].
  by apply (loadDanmaku_loop_registry fuel h t s s' o).
Qed.

(** What a cleanup removes from the lines it takes out of the registry. *)

Lemma cleanup_queue_spec (h : Host) (q : list DanmakuItem) (s s' : CreepyBird)
    (o : Outcome (list DanmakuItem)) :
  cleanup_queue h q s = (o, s') ->
  exists removed q', o = Ok q' /\ q = removed ++ q' /\
    _activeDanmaku s' = _activeDanmaku s ∖ list_to_set (oids removed).
Proof.
  revert s s' o. induction q as [| front rest IH]; intros s s' o H; simpl in H.
  - unfold ret in H. simplify_eq/=. exists [], []. split; [done |]. split; [done |].
    simpl. set_solver.
  - assert (Hgo : (active_delete (danmaku front);; emit (item_remove front);;
                   cleanup_queue h rest) s = (o, s') ->
                  exists removed q', o = Ok q' /\ front :: rest = removed ++ q' /\
                    _activeDanmaku s' = _activeDanmaku s ∖ list_to_set (oids removed)).
    { clear H. unfold active_delete. mstep. intros H.
      destruct (IH _ _ _ H) as (removed & q' & -> & -> & Ha).
      exists (front :: removed), q'. split; [done |]. split; [done |].
      rewrite Ha. simpl. set_solver. }
    destruct (playState h (element front)) as [[] |]; try (by apply Hgo);
      unfold ret in H; simplify_eq/=; exists [], (front :: rest);
      (split; [done |]); (split; [done |]); simpl; set_solver.
Qed.

Lemma cleanup_line_spec (h : Host) (l : DanmakuLine) (s s' : CreepyBird)
    (o : Outcome DanmakuLine) :
  cleanup_line h l s = (o, s') ->
  exists removed l', o = Ok l' /\
    oids (line_items l) ≡ₚ removed ++ oids (line_items l') /\
    _activeDanmaku s' = _activeDanmaku s ∖ list_to_set removed.
Proof.
  unfold cleanup_line. unfold bind at 1. intros H.
  destruct (cleanup_queue h (queue l) s) as [o1 s1] eqn:Hq.
  destruct (cleanup_queue_spec h _ _ _ _ Hq) as (rq & q' & -> & Hsplit & Ha).
  unfold line_items at 1. rewrite Hsplit. unfold oids at 1. rewrite !map_app.
  fold (oids rq). fold (oids q').
  destruct (fixedItem l) as [it |] eqn:Hfix.
  - revert H. unfold active_delete, line_removeFixed. mstep.
    destruct (Qle_bool _ _); intros H; simplify_eq/=.
    + exists (oids rq ++ [oid (danmaku it)]), {| lid := lid l; queue := q'; fixedItem := None |}.
      split; [done |]. split.
      * unfold line_items. simpl. rewrite app_nil_r, <- !app_assoc.
        apply Permutation_app_head, Permutation_app_comm.
      * rewrite Ha, list_to_set_app_L. simpl. set_solver.
    + exists (oids rq), {| lid := lid l; queue := q'; fixedItem := Some it |}.
      split; [done |]. split; [| done].
      unfold line_items, oids. simpl. by rewrite !map_app, app_assoc.
  - unfold ret in H. simplify_eq/=.
    exists (oids rq), {| lid := lid l; queue := q'; fixedItem := None |}.
    split; [done |]. split; [| done].
    unfold line_items, oids. simpl. by rewrite !map_app, !app_nil_r.
Qed.

Lemma forEach_cleanup_spec (h : Host) (lines : list DanmakuLine) (s s' : CreepyBird)
    (o : Outcome (list DanmakuLine)) :
  forEach_line (cleanup_line h) lines s = (o, s') ->
  exists removed lines', o = Ok lines' /\
    visible lines ≡ₚ removed ++ visible lines' /\
    _activeDanmaku s' = _activeDanmaku s ∖ list_to_set removed.
Proof.
  revert s s' o. induction lines as [| l r IH]; intros s s' o H; simpl in H.
  - unfold ret in H. simplify_eq/=. exists [], []. split; [done |]. split; [done |].
    simpl. set_solver.
  - unfold bind at 1 in H.
    destruct (cleanup_line h l s) as [o1 s1] eqn:Hl.
    destruct (cleanup_line_spec h _ _ _ _ Hl) as (r1 & l' & -> & Hp1 & Ha1).
    unfold bind at 1 in H.
    destruct (forEach_line (cleanup_line h) r s1) as [o2 s2] eqn:Hr.
    destruct (IH _ _ _ Hr) as (r2 & r' & -> & Hp2 & Ha2).
    unfold ret in H. simplify_eq/=.
    exists (r1 ++ r2), (l' :: r'). split; [done |]. split.
    + rewrite !visible_cons, Hp1, Hp2. rewrite <- !app_assoc.
      apply Permutation_app_head. rewrite !app_assoc.
      apply Permutation_app_tail, Permutation_app_comm.
    + rewrite Ha2, Ha1, list_to_set_app_L. set_solver.
Qed.

Lemma cleanupDanmaku_registry (h : Host) (s s' : CreepyBird) (o : Outcome unit) :
  cleanupDanmaku h s = (o, s') -> registry_exact s -> registry_exact s'.
Proof.
  unfold cleanupDanmaku. unfold bind at 1, get at 1. intros H [Hm Hnd].
  destruct (negb (_isVisible s)); [unfold ret in H; by simplify_eq/= |].
  destruct (_videoElement s); [| unfold ret in H; by simplify_eq/=].
  unfold bind at 1 in H.
  destruct (forEach_line (cleanup_line h) (_danmakuLines s) s) as [o1 s1] eqn:Hfor.
  destruct (forEach_cleanup_spec h _ _ _ _ Hfor) as (removed & lines' & -> & Hp & Ha).
  unfold modify in H. simplify_eq/=.
  rewrite Hp in Hnd. apply NoDup_app in Hnd as (_ & Hdisj & Hnd').
  unfold registry_exact, registry_matches in *. simpl. split; [| done].
  intros x. rewrite Ha, elem_of_difference, elem_of_list_to_set, Hm, Hp, elem_of_app.
  split.
  - intros [[Hr | Hv] Hnot]; [done | done].
  - intros Hv. split; [by right |]. intros Hr. by apply (Hdisj x).
Qed.

Lemma registry_exact_visible (s s' : CreepyBird) :
  visible (_danmakuLines s') = visible (_danmakuLines s) ->
  _activeDanmaku s' = _activeDanmaku s ->
  registry_exact s -> registry_exact s'.
Proof.
  unfold registry_exact, registry_matches. intros Hv Ha. by rewrite Hv, Ha.
Qed.

Lemma grow_lines_registry (fuel : nat) (a : Lines) (s s' : CreepyBird) (o : Outcome unit) :
  grow_lines fuel a s = (o, s') ->
  visible (_danmakuLines s') = visible (_danmakuLines s) /\
  _activeDanmaku s' = _activeDanmaku s.
Proof.
  revert s. induction fuel as [| fuel IH]; intros s H; simpl in H.
  - mstep. case_match; by simplify_eq/=.
  - unfold new_DanmakuLine in H. mstep.
    destruct (Lines_gtb a (length (_danmakuLines s))); [| by simplify_eq/=].
    destruct (IH _ H) as [Hv Ha]. simpl in Hv, Ha. rewrite Hv, Ha. split; [| done].
    rewrite visible_app. unfold visible at 2. simpl. by rewrite app_nil_r.
Qed.

Lemma shrink_lines_nil (fuel : nat) (a : Lines) (s s' : CreepyBird) (o : Outcome unit) :
  _danmakuLines s = [] -> shrink_lines fuel a s = (o, s') ->
  lines_registry s' = lines_registry s.
Proof.
  intros Hnil H. destruct fuel as [| fuel]; simpl in H; mstep; rewrite Hnil in H;
    simpl in H; case_match; by simplify_eq/=.
Qed.

(** A resize that pops no line, or finds no line, keeps the registry exact. *)
Lemma updateDanmakuLines_registry_exact (h : Host) (s s' : CreepyBird) (o : Outcome unit) :
  updateDanmakuLines h s = (o, s') ->
  Lines_ltb (calAvailableLines h s) (length (_danmakuLines s)) = false \/
  _danmakuLines s = [] ->
  registry_exact s -> registry_exact s'.
Proof.
  unfold updateDanmakuLines. unfold bind at 1, get at 1. intros H Hkeep Hreg.
  destruct (_videoElement s); [| unfold throw in H; by simplify_eq/=].
  destruct (Lines_eqb _ _); [unfold ret in H; by simplify_eq/= |].
  destruct (Lines_ltb _ _) eqn:Hlt.
  - destruct Hkeep as [? | Hnil]; [done |].
    apply (registry_exact_ext s); [| done].
    by apply (shrink_lines_nil _ _ _ _ _ Hnil H).
  - destruct (grow_lines_registry _ _ _ _ _ H) as [Hv Ha].
    by apply (registry_exact_visible s).
Qed.

Lemma registry_exact_nil (s : CreepyBird) :
  _danmakuLines s = [] -> _activeDanmaku s = ∅ -> registry_exact s.
Proof.
  unfold registry_exact, registry_matches. intros -> ->. split; [| constructor].
  intros x. unfold visible. simpl. set_solver.
Qed.

(** After [detach()] there is no line, and the registry is exact if it was. *)
Lemma detach_spec (s s' : CreepyBird) (o : Outcome Self) :
  detach s = (o, s') -> well_formed s -> registry_exact s ->
  _danmakuLines s' = [] /\ registry_exact s' /\ well_formed s'.
Proof.
  intros H Hwf Hreg.
  pose proof (detach_well_formed _ _ _ H Hwf) as Hwf'.
  destruct Hwf as (_ & _ & Hvid).
  revert H. unfold detach, _clearInterval. mstep.
  destruct (_intervalId s); simpl;
    (destruct (_videoElement s) eqn:Hv; simpl);
    try (destruct (overlayElement s); simpl);
    intros [= <- <-]; simpl in *;
    try (split; [done |]; split; [by apply registry_exact_nil | done]).
  all: assert (Hnil : _danmakuLines s = [])
         by (destruct (_danmakuLines s); [done |]; by destruct Hvid as [? [=]]).
  all: split; [done |]; split; [| done]; by apply (registry_exact_ext s).
Qed.

Lemma attachToVideo_registry (h : Host) (v : nat) (s s' : CreepyBird) (o : Outcome nat) :
  attachToVideo h v s = (o, s') ->
  ~ (_state s = CreepyBirdState.Empty /\ _danmakuLines s <> []) ->
  well_formed s -> registry_exact s -> registry_exact s'.
Proof.
  intros H Hkeep Hwf Hreg. revert H. unfold attachToVideo. unfold bind at 1, get at 1.
  assert (Hrest : forall s0 : CreepyBird,
    _danmakuLines s0 = [] -> registry_exact s0 ->
    (modify (set_videoElement (Some v));;
     let* el := alloc in
     modify (set_overlayElement (Some el));;
     emit (CreateOverlay el v);;
     modify (set_intersectionObserver true);;
     modify (set_resizeObserver true);;
     modify (set_handlers true);;
     updateDanmakuLines h;;
     modify (set_state CreepyBirdState.Hide);;
     ret el) s0 = (o, s') -> registry_exact s').
  { intros s0 Hnil Hreg0. mstep.
    match goal with
    | |- context [updateDanmakuLines h ?st] =>
        destruct (updateDanmakuLines h st) as [o1 s1] eqn:Hup;
        assert (Hreg1 : registry_exact s1)
          by (apply (updateDanmakuLines_registry_exact h st s1 o1 Hup);
              [by right | by apply (registry_exact_ext s0)])
    end.
    destruct o1; intros; by simplify_eq/=. }
  destruct (negb (CreepyBirdState.eqb (_state s) CreepyBirdState.Empty)) eqn:Hst.
  - unfold bind at 1, bind at 1.
    destruct (detach s) as [o0 s0] eqn:Hdet.
    destruct (detach_spec _ _ _ Hdet Hwf Hreg) as (Hnil & Hreg0 & _).
    destruct o0; [| by intros; simplify_eq/= ..].
    unfold ret at 1. by apply Hrest.
  - unfold bind at 1, ret at 1. apply Hrest; [| done].
    destruct (_danmakuLines s) eqn:Hl; [done |]. exfalso. apply Hkeep.
    split; [| done]. by destruct (_state s).
Qed.

(** An event that cannot make a resize discard items leaves the registry
    exact. *)
Lemma handle_registry_exact (h : Host) (parse : Payload -> Outcome Parsed) (e : Event)
    (s : CreepyBird) :
  well_formed s -> registry_exact s -> ~ may_discard h e s ->
  registry_exact (exec (handle h parse e) s).
Proof.
  intros Hwf Hreg Hkeep. unfold exec.
  destruct (handle h parse e s) as [o s'] eqn:H. simpl.
  assert (Hframe : preserves lines_registry (handle h parse e) -> registry_exact s').
  { intros Hp. apply (registry_exact_ext s); [| done]. by apply (Hp _ _ _ H). }
  assert (Hmap : forall tuples, preserves lines_registry (map_M new_Danmaku tuples)).
  { induction tuples as [| t r IH]; simpl; unfold new_Danmaku, _validateMode; frame. }
  assert (Htick : forall fuel s0 o0 s1,
            tick fuel h s0 = (o0, s1) -> well_formed s0 -> registry_exact s0 ->
            registry_exact s1).
  { intros fuel s0 o0 s1 Ht Hwf0 Hreg0. revert Ht. unfold tick.
    unfold bind at 1, get at 1.
    destruct (_videoElement s0); [| by intros; mstep; simplify_eq/=].
    unfold bind at 1.
    destruct (loadDanmaku fuel h (currentTime h) s0) as [o1 s2] eqn:Hload.
    pose proof (loadDanmaku_registry _ _ _ _ _ _ Hload Hwf0 Hreg0) as Hreg2.
    destruct o1; [| by intros; mstep; simplify_eq/= ..].
    intros Hc. by apply (cleanupDanmaku_registry h _ _ _ Hc). }
  destruct e; simpl in H, Hkeep;
    try (apply Hframe; simpl;
         unfold load, load_begin, load_then; unfold_lifecycle; by frame).
  - (* attachToVideo *)
    unfold drop, bind in H.
    destruct (attachToVideo h videoElement s) as [o1 s1] eqn:Hat.
    pose proof (attachToVideo_registry _ _ _ _ _ Hat Hkeep Hwf Hreg).
    destruct o1; unfold ret in H; by simplify_eq/=.
  - (* detach *)
    unfold drop, bind in H. destruct (detach s) as [o1 s1] eqn:Hdet.
    destruct (detach_spec _ _ _ Hdet Hwf Hreg) as (_ & Hreg1 & _).
    destruct o1; unfold ret in H; by simplify_eq/=.
  - (* loadDanmaku *)
    by apply (loadDanmaku_registry _ _ _ _ _ _ H).
  - (* cleanupDanmaku *)
    by apply (cleanupDanmaku_registry _ _ _ _ H).
  - (* updateDanmakuLines *)
    apply (updateDanmakuLines_registry_exact _ _ _ _ H); [| done].
    left. by destruct (Lines_ltb _ _).
  - (* the timer *)
    revert H. unfold bind, get. destruct (_intervalId s); [| by intros; mstep; simplify_eq/=].
    intros H. by apply (Htick _ _ _ _ H).
  - (* an observer *)
    revert H. unfold bind, get, updatePosition.
    destruct (_resizeObserver s || _intersectionObserver s); [| by intros; mstep; simplify_eq/=].
    intros H. apply (updateDanmakuLines_registry_exact _ _ _ _ H); [| done].
    left. by destruct (Lines_ltb _ _).
Qed.

(** Along a history without such an event the registry matches the lines. *)
Lemma reachable_keeping_registry (parse : Payload -> Outcome Parsed) (s : CreepyBird) :
  reachable_keeping parse s -> registry_matches s.
Proof.
  intros Hr.
  assert (H : well_formed s /\ registry_exact s); [| by destruct H as [_ [? _]]].
  induction Hr as [| h e s Hr [Hwf Hreg] Hkeep].
  - split; [| by apply registry_exact_nil].
    unfold well_formed. simpl. split; [constructor |]. by split.
  - split; [by apply handle_well_formed | by apply handle_registry_exact].
Qed.

(** ** The registry across a resize *)

Lemma registry_matches_list_to_set (s : CreepyBird) :
  _activeDanmaku s = list_to_set (visible (_danmakuLines s)) -> registry_matches s.
Proof. intros H o. rewrite H. apply elem_of_list_to_set. Qed.

(** A resize never writes the registry, whatever it clears. *)
Lemma updateDanmakuLines_registry (h : Host) :
  preserves _activeDanmaku (updateDanmakuLines h).
Proof.
  assert (forall fuel a, preserves _activeDanmaku (shrink_lines fuel a)).
  { induction fuel as [| fuel IH]; intros a; simpl; frame. }
  assert (forall fuel a, preserves _activeDanmaku (grow_lines fuel a)).
  { induction fuel as [| fuel IH]; intros a; simpl; unfold new_DanmakuLine; frame. }
  unfold updateDanmakuLines. frame.
Qed.

(** C1 on the code.  [showing] holds two items, one for each active danmaku.
    The video shrinks from 360 to 200 pixels: the resize observer takes the
    lines from twelve to six and clears the last one, which held the fixed
    item of danmaku 15.  The registry is not written: danmaku 15 stays
    active with no item on any line. *)
Theorem resize_leaves_stale_registry :
  (registry_matches showing /\
   length (_danmakuLines showing) = 12%nat /\
   visible (_danmakuLines showing) = [17%nat; 15%nat]) /\
  (outcome (handle (shrunk_host (95 # 100)) parse_nothing Observer) showing = Ok tt /\
   length (_danmakuLines shrunk) = 6%nat /\
   visible (_danmakuLines shrunk) = [17%nat] /\
   _activeDanmaku shrunk = _activeDanmaku showing) /\
  (15%nat ∈ _activeDanmaku shrunk) /\
  (15%nat ∉ visible (_danmakuLines shrunk)) /\
  ~ registry_matches shrunk.
Proof.
  assert (Hin : 15%nat ∈ _activeDanmaku shrunk).
  { refine (bool_decide_unpack _ _). vm_compute. reflexivity. }
  assert (Hout : 15%nat ∉ visible (_danmakuLines shrunk)).
  { refine (bool_decide_unpack _ _). vm_compute. reflexivity. }
  split; [| split; [| split; [exact Hin | split; [exact Hout |]]]].
  - split; [| split]; [| vm_compute; reflexivity ..].
    apply registry_matches_list_to_set. vm_compute. reflexivity.
  - split; [| split; [| split]]; vm_compute; reflexivity.
  - intros Hm. apply Hout, Hm. exact Hin.
Qed.
